(** * pygama.io.orca_helper: a shallow embedding and its properties

    The module reads ORCA capture files: [parse_header] decodes the
    preamble and the property-list header, the [get_*] and [flip_data_ids]
    functions derive lookup tables from the parsed header, and
    [get_next_packet] cuts the packet stream into (payload, data id) pairs.

    Python values are modelled as follows.
    - [int] is [Z]; [>>] is [Z.shiftr] (floor semantics, also on negative
      numbers), [&] is [Z.land], [<<] is [Z.shiftl].
    - [bytes] / [bytearray] is [list byte].
    - What [plistlib] returns is the tagged tree [pyval]; a [dict] keeps its
      insertion order and is an association list with first-match lookup.
    - An exception is the [Raise] case of [result]; the exception classes
      the module can meet are the constructors of [exn].
    - A binary file object is [stream]: the bytes after the read cursor and
      the kind of object, which decides what [read] does with a negative
      size.
    - The byte order of the machine, [sys.byteorder], which is also the
      order of a native [np.uint32], is the section variable
      [sys_byteorder].
    - [np.fromstring] is the binary mode of the NumPy releases the module
      was written for; [parse_header] is its Python 3 branch, with the
      property-list parser of the standard library as a section variable.
    - Writes to the console ([print]) are not part of the model. *)

From Stdlib Require Import ZArith Lia Strings.Byte Strings.String.
From stdpp Require Import base option list strings gmap.

Local Open Scope Z_scope.

(** ** Exceptions and results *)

Inductive exn : Type :=
| KeyError (key : string)
| TypeError
| AttributeError
| IndexError
| ValueError (msg : string)
| EOFError
| InvalidFileException
| Exception (msg : string).

Inductive result (A : Type) : Type :=
| Ok (a : A)
| Raise (e : exn).
Arguments Ok {A} a.
Arguments Raise {A} e.

Definition bind {A B : Type} (r : result A) (k : A → result B) : result B :=
  match r with
  | Ok a => k a
  | Raise e => Raise e
  end.

Notation "'do' x <- r ; k" := (bind r (fun x => k))
  (at level 10, x name, r at level 100, k at level 200).

Definition raises {A : Type} (r : result A) : Prop :=
  match r with
  | Ok _ => False
  | Raise _ => True
  end.

(** [for x in xs: acc = body(acc, x)] where the body may raise. *)
Fixpoint for_each {A S : Type} (body : S → A → result S) (xs : list A) (s : S)
  : result S :=
  match xs with
  | [] => Ok s
  | x :: xs' => do s' <- body s x; for_each body xs' s'
  end.

(** ** Bytes and 32-bit words *)

Definition byte_val (b : byte) : Z := Z.of_N (Byte.to_N b).

Inductive byteorder : Type := little | big.

(** The loop of [from_bytes]: [num += byte << (offset * 8)]. *)
Fixpoint from_bytes_loop (data : list byte) (offset num : Z) : Z :=
  match data with
  | [] => num
  | b :: data' =>
      from_bytes_loop data' (offset + 1) (num + Z.shiftl (byte_val b) (offset * 8))
  end.

Definition from_bytes (data : list byte) (big_endian : bool) : Z :=
  from_bytes_loop (if big_endian then rev data else data) 0 0.

(** One [uint32] as the host lays it out in memory. *)
Definition uint32_native (host : byteorder) (b0 b1 b2 b3 : byte) : Z :=
  match host with
  | little =>
      byte_val b0 + byte_val b1 * 2 ^ 8 + byte_val b2 * 2 ^ 16 + byte_val b3 * 2 ^ 24
  | big =>
      byte_val b3 + byte_val b2 * 2 ^ 8 + byte_val b1 * 2 ^ 16 + byte_val b0 * 2 ^ 24
  end.

(** [np.fromstring(data, dtype=np.uint32)] in binary mode: the string is
    reinterpreted as an array of native words, and a length that is not a
    multiple of four is refused. *)
Fixpoint uint32_array (host : byteorder) (data : list byte) : list Z :=
  match data with
  | b0 :: b1 :: b2 :: b3 :: data' => uint32_native host b0 b1 b2 b3 :: uint32_array host data'
  | _ => []
  end.

Definition np_fromstring_uint32 (host : byteorder) (data : list byte) : result (list Z) :=
  if decide (Z.of_nat (length data) mod 4 = 0)
  then Ok (uint32_array host data)
  else Raise (ValueError "string size must be a multiple of element size").

(** The two fields of a packet's leading word. *)
Definition record_length_of (word : Z) : Z := Z.land word 0x3FFFF.
Definition data_id_of (word : Z) : Z := Z.shiftr word 18.

(** ** Header values

    [plistlib] yields dictionaries with string keys, lists, strings,
    integers, floating-point numbers (kept as their IEEE-754 bit pattern),
    booleans, byte strings and dates (kept as a timestamp). *)

#[local] Unset Elimination Schemes.
Inductive pyval : Type :=
| PStr (s : string)
| PInt (n : Z)
| PReal (bits : Z)
| PBool (b : bool)
| PData (bs : list byte)
| PDate (t : Z)
| PList (xs : list pyval)
| PDict (kvs : list (string * pyval)).
#[local] Set Elimination Schemes.

(** *** Insertion-ordered dictionaries *)

Fixpoint dict_get {V : Type} (k : string) (d : list (string * V)) : option V :=
  match d with
  | [] => None
  | (k', v) :: d' => if decide (k' = k) then Some v else dict_get k d'
  end.

(** [d[k] = v]: an existing key keeps its position, a new one goes last. *)
Fixpoint dict_set {V : Type} (k : string) (v : V) (d : list (string * V))
  : list (string * V) :=
  match d with
  | [] => [(k, v)]
  | (k', v') :: d' =>
      if decide (k' = k) then (k', v) :: d' else (k', v') :: dict_set k v d'
  end.

Definition dict_keys {V : Type} (d : list (string * V)) : list string := d.*1.

(** *** The operations the module applies to header values *)

(** [v[k]] for a string [k]: only a dictionary can be indexed by a string. *)
Definition getitem (v : pyval) (k : string) : result pyval :=
  match v with
  | PDict kvs =>
      match dict_get k kvs with
      | Some x => Ok x
      | None => Raise (KeyError k)
      end
  | _ => Raise TypeError
  end.

(** [v[k] = x] for a string [k]. *)
Definition setitem (v : pyval) (k : string) (x : pyval) : result pyval :=
  match v with
  | PDict kvs => Ok (PDict (dict_set k x kvs))
  | _ => Raise TypeError
  end.

(** [v.keys()]. *)
Definition keys (v : pyval) : result (list string) :=
  match v with
  | PDict kvs => Ok (dict_keys kvs)
  | _ => Raise AttributeError
  end.

(** [v >> 18]: defined on integers, and on booleans as the integers 0 and 1. *)
Definition rshift18 (v : pyval) : result Z :=
  match v with
  | PInt n => Ok (Z.shiftr n 18)
  | PBool b => Ok (Z.shiftr (Z.b2z b) 18)
  | _ => Raise TypeError
  end.

(** [v == s] for a string [s]. *)
Definition eq_str (v : pyval) (s : string) : bool :=
  match v with
  | PStr s' => bool_decide (s' = s)
  | _ => false
  end.

Fixpoint chars (s : string) : list pyval :=
  match s with
  | EmptyString => []
  | String c s' => PStr (String c EmptyString) :: chars s'
  end.

(** The elements a [for] loop over [v] visits. *)
Definition py_iter (v : pyval) : result (list pyval) :=
  match v with
  | PList xs => Ok xs
  | PDict kvs => Ok (PStr <$> dict_keys kvs)
  | PStr s => Ok (chars s)
  | PData bs => Ok ((λ b, PInt (byte_val b)) <$> bs)
  | _ => Raise TypeError
  end.

(** [k in v] for a string [k]: key membership in a dictionary, element
    membership in a list, substring test in a string. *)
Definition contains (k : string) (v : pyval) : result bool :=
  match v with
  | PDict kvs => Ok (bool_decide (k ∈ dict_keys kvs))
  | PList xs => Ok (existsb (λ x, eq_str x k) xs)
  | PStr s => Ok (bool_decide (is_Some (String.index 0 k s)))
  | _ => Raise TypeError
  end.

(** ** Binary file objects *)

(** [io.BytesIO], an unbuffered [io.FileIO] and a Python 2 [file] read to
    the end of the file for every negative size; [io.BufferedReader], which
    is what [open(path, 'rb')] returns, accepts -1 only. *)
Inductive stream_kind : Type := read_all_on_negative | buffered_reader.

Record stream : Type := Stream {
  kind : stream_kind;
  remaining : list byte
}.

Definition read (size : Z) (f : stream) : result (list byte) * stream :=
  if decide (size < 0) then
    match kind f with
    | read_all_on_negative => (Ok (remaining f), Stream (kind f) [])
    | buffered_reader =>
        if decide (size = -1)
        then (Ok (remaining f), Stream (kind f) [])
        else (Raise (ValueError "read length must be non-negative or -1"), f)
    end
  else
    (Ok (take (Z.to_nat size) (remaining f)),
     Stream (kind f) (drop (Z.to_nat size) (remaining f))).

(** ** Reading the file

    [get_next_packet] has two handlers.  The first one covers the read of
    the leading word and its conversion, and replaces whatever they raise by
    the generic [Exception]; indexing the word array, [head[0]], comes after
    it and raises [IndexError] on its own when the array is empty.  The
    second one covers the read of the payload and replaces whatever it
    raises by [EOFError]. *)

Section Host.

Variable sys_byteorder : byteorder.

(** [plistlib.readPlistFromBytes], the property-list parser of the
    standard library. *)
Variable readPlistFromBytes : list byte → result pyval.

(** The argument is the content of the file that [open(xmlfile, 'rb')]
    opens. *)
Definition parse_header (xmlfile : list byte) : result (Z * Z * pyval) :=
  let xmlfile_handle := Stream buffered_reader xmlfile in
  let '(r, handle1) := read 8 xmlfile_handle in
  do ba <- r;
  let big_endian := match sys_byteorder with little => false | big => true end in
  let i := from_bytes (take 4 ba) big_endian in
  let j := from_bytes (drop 4 ba) big_endian in
  let '(r', _) := read j handle1 in
  do ba' <- r';
  do header_dict <- readPlistFromBytes ba';
  Ok (i, j, header_dict).

Definition get_next_packet (f_in : stream) : result (list byte * Z) * stream :=
  let '(r, f1) := read 4 f_in in
  match (do bs <- r; np_fromstring_uint32 sys_byteorder bs) with
  | Raise _ => (Raise (Exception "Failed to read in the event orca header."), f1)
  | Ok head =>
      match head !! 0%nat with
      | None => (Raise IndexError, f1)
      | Some head0 =>
          let record_length := record_length_of head0 in
          let data_id := data_id_of head0 in
          let '(r2, f2) := read (record_length * 4 - 4) f1 in
          match r2 with
          | Raise _ => (Raise EOFError, f2)
          | Ok event_data => (Ok (event_data, data_id), f2)
          end
      end
  end.

End Host.

(** ** The registry derived from the header *)

Fixpoint run_number_loop (ds : list pyval) : result pyval :=
  match ds with
  | [] => Raise (ValueError "No run number found in header!")
  | d :: ds' =>
      do found <- contains "Run Control" d;
      if (found : bool)
      then do rc <- getitem d "Run Control"; getitem rc "RunNumber"
      else run_number_loop ds'
  end.

Definition get_run_number (header_dict : pyval) : result pyval :=
  do oi <- getitem header_dict "ObjectInfo";
  do chain <- getitem oi "DataChain";
  do ds <- py_iter chain;
  run_number_loop ds.

Definition get_data_id (header_dict : pyval) (class_name super_name : string)
  : result Z :=
  do dd <- getitem header_dict "dataDescription";
  do c <- getitem dd class_name;
  do leaf <- getitem c super_name;
  do id_int <- getitem leaf "dataId";
  rshift18 id_int.

(** [dd[class_key][super_key][field]]. *)
Definition leaf_field (dd : pyval) (class_key super_key field : string)
  : result pyval :=
  do c <- getitem dd class_key;
  do leaf <- getitem c super_key;
  getitem leaf field.

Definition id2dn_super (dd : pyval) (class_key : string)
    (id2dn_dict : gmap Z pyval) (super_key : string) : result (gmap Z pyval) :=
  do raw <- leaf_field dd class_key super_key "dataId";
  do dataID <- rshift18 raw;
  do decoder_name <- leaf_field dd class_key super_key "decoder";
  Ok (<[dataID := decoder_name]> id2dn_dict).

Definition id2dn_class (dd : pyval) (id2dn_dict : gmap Z pyval)
    (class_key : string) : result (gmap Z pyval) :=
  do c <- getitem dd class_key;
  do super_keys <- keys c;
  for_each (id2dn_super dd class_key) super_keys id2dn_dict.

Definition get_id_to_decoder_name_dict (header_dict : pyval)
  : result (gmap Z pyval) :=
  do dd <- getitem header_dict "dataDescription";
  do class_keys <- keys dd;
  for_each (id2dn_class dd) class_keys ∅.

(** *** [flip_data_ids]

    Each entry of [flipped] is [[class_key, super_keys_list]], where
    [super_keys_list] is one list object per class that the inner loop keeps
    appending to.  The list objects live in a store ([list (list string)],
    addressed by position); an entry holds the address, so that an append
    made after the entry was written is seen through it. *)

Record flip_state : Type := FlipState {
  flipped : gmap Z (string * nat);
  lists : list (list string)
}.

Definition flip_super (dd : pyval) (class_key : string) (super_keys_list : nat)
    (st : flip_state) (super_key : string) : result flip_state :=
  let lists' := alter (λ l, l ++ [super_key]) super_keys_list (lists st) in
  do raw <- leaf_field dd class_key super_key "dataId";
  do ID_val <- rshift18 raw;
  Ok (FlipState (<[ID_val := (class_key, super_keys_list)]> (flipped st)) lists').

Definition flip_class (dd : pyval) (st : flip_state) (class_key : string)
  : result flip_state :=
  let super_keys_list := length (lists st) in
  let st' := FlipState (flipped st) (lists st ++ [[]]) in
  do c <- getitem dd class_key;
  do super_keys <- keys c;
  for_each (flip_super dd class_key super_keys_list) super_keys st'.

Definition flip_data_ids (header_dict : pyval) : result flip_state :=
  do dd <- getitem header_dict "dataDescription";
  do class_keys <- keys dd;
  for_each (flip_class dd) class_keys (FlipState ∅ []).

(** What the caller reads at [flipped[id]] in the returned dictionary. *)
Definition flipped_at (st : flip_state) (id : Z) : option (string * list string) :=
  match flipped st !! id with
  | Some (class_key, a) =>
      match lists st !! a with
      | Some l => Some (class_key, l)
      | None => None
      end
  | None => None
  end.

(** *** [get_object_info]

    [card["Crate"] = crate["CrateNumber"]] writes into a dictionary that is
    part of the header, and the list that is returned holds those same
    dictionaries.  The header that [plistlib] builds is a tree, so the
    function is modelled by passing the header along: it returns the header
    as the call leaves it together with the outcome.  [store] puts a child
    that the loops changed back into its parent. *)

Definition store (parent : pyval) (k : string) (child : pyval) : pyval :=
  match parent with
  | PDict kvs => PDict (dict_set k child kvs)
  | _ => parent
  end.

Fixpoint cards_loop (orca_class_name : string) (crate : pyval)
    (cards object_info_list : list pyval) : list pyval * result (list pyval) :=
  match cards with
  | [] => ([], Ok object_info_list)
  | card :: cards' =>
      match getitem card "Class Name" with
      | Raise e => (cards, Raise e)
      | Ok class_name =>
          if eq_str class_name orca_class_name then
            match (do number <- getitem crate "CrateNumber";
                   setitem card "Crate" number) with
            | Raise e => (cards, Raise e)
            | Ok card' =>
                let '(cards'', r) :=
                  cards_loop orca_class_name crate cards'
                    (object_info_list ++ [card']) in
                (card' :: cards'', r)
            end
          else
            let '(cards'', r) :=
              cards_loop orca_class_name crate cards' object_info_list in
            (card :: cards'', r)
      end
  end.

(** The cards of a crate are written back when they are a list; the
    elements of any other iterable are strings or integers, on which the
    loop body fails before it writes. *)
Definition store_list (parent : pyval) (k : string) (old : pyval)
    (xs : list pyval) : pyval :=
  match old with
  | PList _ => store parent k (PList xs)
  | _ => parent
  end.

Fixpoint crates_loop (orca_class_name : string)
    (crates object_info_list : list pyval) : list pyval * result (list pyval) :=
  match crates with
  | [] => ([], Ok object_info_list)
  | crate :: crates' =>
      match (do cards <- getitem crate "Cards";
             do cs <- py_iter cards; Ok (cards, cs)) with
      | Raise e => (crates, Raise e)
      | Ok (cards, cs) =>
          let '(cs', r) := cards_loop orca_class_name crate cs object_info_list in
          let crate' := store_list crate "Cards" cards cs' in
          match r with
          | Raise e => (crate' :: crates', Raise e)
          | Ok object_info_list' =>
              let '(crates'', r') :=
                crates_loop orca_class_name crates' object_info_list' in
              (crate' :: crates'', r')
          end
      end
  end.

Definition get_object_info (header_dict : pyval) (orca_class_name : string)
  : pyval * result (list pyval) :=
  match (do oi <- getitem header_dict "ObjectInfo";
         do crates <- getitem oi "Crates";
         do cs <- py_iter crates; Ok (oi, crates, cs)) with
  | Raise e => (header_dict, Raise e)
  | Ok (oi, crates, cs) =>
      let '(cs', r) := crates_loop orca_class_name cs [] in
      (store header_dict "ObjectInfo" (store_list oi "Crates" crates cs'), r)
  end.

(** *** [OrcaDecoder]

    The attributes that [set_header_dict] and [set_object_info] read and
    write.  [orca_class_name] is set by the subclasses; it is [None] for a
    decoder whose class did not set it, and reading it then raises
    [AttributeError].  [header_dict] refers to the header of the caller, the
    object that [get_object_info] writes into: it is kept here as that
    header is once the method is over, and the method returns the header
    along with the decoder. *)

Module OrcaDecoder.

Record t : Type := Build {
  orca_class_name : option string;
  header_dict : option pyval;
  object_info : list pyval
}.

Definition set_object_info (self : t) (info : list pyval) : t :=
  Build (orca_class_name self) (header_dict self) info.

Definition set_header_dict (self : t) (header : pyval) : t * pyval * result unit :=
  match orca_class_name self with
  | None =>
      (Build (orca_class_name self) (Some header) (object_info self),
       header, Raise AttributeError)
  | Some name =>
      let '(header', r) := get_object_info header name in
      match r with
      | Ok info => (Build (orca_class_name self) (Some header') info, header', Ok ())
      | Raise e =>
          (Build (orca_class_name self) (Some header') (object_info self),
           header', Raise e)
      end
  end.

End OrcaDecoder.

(** ** Vocabulary of the statements

    The declaration tree of a header is [dataDescription]: class names at
    the first level, instance names at the second, and at each leaf the
    fields [dataId] and [decoder]. *)

(** The decoded identifier of the leaf [dd[class_key][super_key]]. *)
Definition declared_id (dd : pyval) (class_key super_key : string) : result Z :=
  do raw <- leaf_field dd class_key super_key "dataId";
  rshift18 raw.

(** The header has a leaf entry for this class and instance whose decoded
    identifier is [id]. *)
Definition declares_id (header_dict : pyval) (class_key super_key : string)
    (id : Z) : Prop :=
  ∃ dd, getitem header_dict "dataDescription" = Ok dd
        ∧ declared_id dd class_key super_key = Ok id.

(** ... and whose decoder name is [decoder_name]. *)
Definition declares (header_dict : pyval) (class_key super_key : string)
    (id : Z) (decoder_name : pyval) : Prop :=
  ∃ dd, getitem header_dict "dataDescription" = Ok dd
        ∧ declared_id dd class_key super_key = Ok id
        ∧ leaf_field dd class_key super_key "decoder" = Ok decoder_name.

(** The instance names of a class, in declaration order. *)
Definition super_keys_of (dd : pyval) (class_key : string) : list string :=
  match (do c <- getitem dd class_key; keys c) with
  | Ok super_keys => super_keys
  | Raise _ => []
  end.

(** The leaf entries in the order of the walk: class by class, and inside a
    class instance by instance. *)
Definition walk (dd : pyval) : list (string * string) :=
  match keys dd with
  | Ok class_keys =>
      class_keys ≫= λ class_key, pair class_key <$> super_keys_of dd class_key
  | Raise _ => []
  end.

Definition leaf_has_id (leaf : pyval) : bool :=
  match (do raw <- getitem leaf "dataId"; rshift18 raw) with
  | Ok _ => true
  | Raise _ => false
  end.

Definition leaf_has_id_and_decoder (leaf : pyval) : bool :=
  leaf_has_id leaf &&
  match getitem leaf "decoder" with
  | Ok _ => true
  | Raise _ => false
  end.

(** A leaf as the header format has it: [dataId] is an integer and
    [decoder] is there. *)
Definition leaf_has_int_id_and_decoder (leaf : pyval) : bool :=
  match getitem leaf "dataId", getitem leaf "decoder" with
  | Ok (PInt _), Ok _ => true
  | _, _ => false
  end.

(** The header has, for this class and instance, a leaf entry whose
    [dataId] is the integer [data_id] and whose [decoder] is
    [decoder_name]. *)
Definition leaf_entry (header_dict : pyval) (class_key super_key : string)
    (data_id : Z) (decoder_name : pyval) : Prop :=
  ∃ dd c l,
    getitem header_dict "dataDescription" = Ok dd
    ∧ getitem dd class_key = Ok c
    ∧ getitem c super_key = Ok l
    ∧ getitem l "dataId" = Ok (PInt data_id)
    ∧ getitem l "decoder" = Ok decoder_name.

(** A declaration tree of the expected shape: dictionaries on the two
    levels and leaves that pass [leaf_ok]. *)
Definition description_ok (leaf_ok : pyval → bool) (header_dict : pyval) : bool :=
  match getitem header_dict "dataDescription" with
  | Ok (PDict classes) =>
      forallb (λ class,
                 match class.2 with
                 | PDict leaves => forallb (λ leaf, leaf_ok leaf.2) leaves
                 | _ => false
                 end) classes
  | _ => false
  end.

(** The run history: [ObjectInfo.DataChain], a list of dictionaries. *)
Definition is_dict (v : pyval) : bool :=
  match v with
  | PDict _ => true
  | _ => false
  end.

Definition has_key (k : string) (v : pyval) : bool :=
  match v with
  | PDict kvs => bool_decide (k ∈ dict_keys kvs)
  | _ => false
  end.

(** The crate and card tree: [ObjectInfo.Crates] is a list of crates, each
    with a [CrateNumber] and a list [Cards] of cards that have a
    [Class Name]. *)
Definition card_ok (card : pyval) : bool :=
  match getitem card "Class Name" with
  | Ok _ => true
  | Raise _ => false
  end.

Definition cards_of (crate : pyval) : list pyval :=
  match getitem crate "Cards" with
  | Ok (PList cards) => cards
  | _ => []
  end.

Definition crate_ok (crate : pyval) : bool :=
  match getitem crate "CrateNumber", getitem crate "Cards" with
  | Ok _, Ok (PList cards) => forallb card_ok cards
  | _, _ => false
  end.

Definition crates_ok (header_dict : pyval) : bool :=
  match (do oi <- getitem header_dict "ObjectInfo"; getitem oi "Crates") with
  | Ok (PList crates) => forallb crate_ok crates
  | _ => false
  end.

(** A card is selected when its class name is the requested one. *)
Definition selected (orca_class_name : string) (card : pyval) : bool :=
  match getitem card "Class Name" with
  | Ok class_name => eq_str class_name orca_class_name
  | Raise _ => false
  end.

(** The card with the number of its crate under the key [Crate]; other
    cards as they are. *)
Definition stamp_card (orca_class_name : string) (crate card : pyval) : pyval :=
  if selected orca_class_name card then
    match getitem crate "CrateNumber" with
    | Ok number => store card "Crate" number
    | Raise _ => card
    end
  else card.

Definition stamp_crate (orca_class_name : string) (crate : pyval) : pyval :=
  store crate "Cards"
    (PList (stamp_card orca_class_name crate <$> cards_of crate)).

(** The selected cards of a crate, stamped, in card order. *)
Definition stamped_selection (orca_class_name : string) (crate : pyval)
  : list pyval :=
  stamp_card orca_class_name crate
    <$> filter (λ card, selected orca_class_name card = true) (cards_of crate).

(** What the walk reads at the entry [e]: the pair [p] of its decoded
    identifier and its decoder name. *)
Definition entry_reads (dd : pyval) (e : string * string) (p : Z * pyval) : Prop :=
  declared_id dd e.1 e.2 = Ok p.1
  ∧ leaf_field dd e.1 e.2 "decoder" = Ok p.2.

(** [t[p.1] = p.2], the step of a table that is filled by assignments. *)
Definition assign {V : Type} (t : gmap Z V) (p : Z * V) : gmap Z V :=
  <[p.1 := p.2]> t.

(** The state of [flip_data_ids] between two classes: every entry of
    [flipped] names a class already visited that declares the identifier
    and points at the complete list of the instance names of that class,
    and every identifier declared by a visited class has an entry. *)
Definition flip_inv (dd : pyval) (visited : list string) (st : flip_state) : Prop :=
  (∀ id class_key a,
     flipped st !! id = Some (class_key, a) →
     lists st !! a = Some (super_keys_of dd class_key)
     ∧ class_key ∈ visited
     ∧ ∃ super_key, declared_id dd class_key super_key = Ok id)
  ∧ (∀ class_key super_key id,
       class_key ∈ visited →
       declared_id dd class_key super_key = Ok id →
       is_Some (flipped st !! id)).

(** ** Sample headers *)

Definition leaf (data_id : Z) (decoder : string) : pyval :=
  PDict [("dataId", PInt data_id); ("decoder", PStr decoder)].

(** Two classes whose leaves both decode to identifier 1. *)
Definition colliding_header : pyval :=
  PDict [("dataDescription",
          PDict [("ORGretina4MModel",
                  PDict [("Gretina4M", leaf 262144 "ORGretina4MWaveformDecoder")]);
                 ("ORSIS3302Model",
                  PDict [("Energy", leaf 262151 "ORSIS3302DecoderForEnergy")])])].

(** The second class alone. *)
Definition single_header : pyval :=
  PDict [("dataDescription",
          PDict [("ORSIS3302Model",
                  PDict [("Energy", leaf 262151 "ORSIS3302DecoderForEnergy")])])].

(** One class with two instances, identifiers 1 and 2. *)
Definition two_instance_header : pyval :=
  PDict [("dataDescription",
          PDict [("ORSIS3302Model",
                  PDict [("Energy", leaf 262144 "ORSIS3302DecoderForEnergy");
                         ("Mca", leaf 524288 "ORSIS3302DecoderForMca")])])].

(** One crate, number 2, with one card. *)
Definition one_card_header : pyval :=
  PDict [("ObjectInfo",
          PDict [("Crates",
                  PList [PDict [("CrateNumber", PInt 2);
                                ("Cards",
                                 PList [PDict [("Class Name", PStr "ORSIS3302Model");
                                               ("Card", PInt 3)]])]]);
                 ("DataChain",
                  PList [PDict [("Document", PStr "legend.Orca")];
                         PDict [("Run Control", PDict [("RunNumber", PInt 117)])];
                         PDict [("Run Control", PDict [("RunNumber", PInt 118)])]])])].

(** * Properties *)

(** ** The leading word *)

Lemma record_length_of_mod (word : Z) : record_length_of word = word mod 2 ^ 18.
Proof. unfold record_length_of. change 0x3FFFF with (Z.ones 18). by rewrite Z.land_ones. Qed.

Lemma data_id_of_div (word : Z) : data_id_of word = word / 2 ^ 18.
Proof. unfold data_id_of. by rewrite Z.shiftr_div_pow2. Qed.

Lemma record_length_of_range (word : Z) : 0 ≤ record_length_of word < 2 ^ 18.
Proof. rewrite record_length_of_mod. apply Z.mod_pos_bound. lia. Qed.

(** The two fields do not overlap, so [|] adds them. *)
Lemma pack_add (len id : Z) :
  0 ≤ len < 2 ^ 18 → Z.lor (Z.shiftl id 18) len = id * 2 ^ 18 + len.
Proof.
  intros Hlen.
  assert (Hdisj : Z.land (Z.shiftl id 18) len = 0).
  { apply Z.bits_inj'. intros n Hn. rewrite Z.land_spec, Z.bits_0.
    destruct (decide (n < 18)) as [Hlt | Hge].
    - rewrite Z.shiftl_spec_low by lia. done.
    - rewrite <- (Z.mod_small len (2 ^ 18)) by lia.
      rewrite Z.mod_pow2_bits_high by lia. apply andb_false_r. }
  rewrite <- Z.lxor_lor by done.
  rewrite <- Z.add_nocarry_lxor by done.
  by rewrite Z.shiftl_mul_pow2.
Qed.

(** C1. Packing round-trip: for every length in [0, 2^18) and every id in
    [0, 2^14), the word [(id << 18) | length] fits 32 bits and the reader's
    two extraction rules, [word & 0x3FFFF] and [word >> 18], give back
    exactly the length and the id. *)
Theorem packing_roundtrip (len id : Z) :
  0 ≤ len < 2 ^ 18 → 0 ≤ id < 2 ^ 14 →
  let word := Z.lor (Z.shiftl id 18) len in
  0 ≤ word < 2 ^ 32 ∧ record_length_of word = len ∧ data_id_of word = id.
Proof.
  intros Hlen Hid word. subst word. rewrite pack_add by done.
  rewrite record_length_of_mod, data_id_of_div. repeat split.
  - lia.
  - lia.
  - rewrite Z.add_comm, Z.mod_add by lia. apply Z.mod_small. lia.
  - rewrite Z.add_comm, Z.div_add by lia. rewrite Z.div_small; lia.
Qed.

Lemma packing_roundtrip_witness :
  let word := Z.lor (Z.shiftl 1 18) 5 in
  0 ≤ word < 2 ^ 32 ∧ record_length_of word = 5 ∧ data_id_of word = 1.
Proof. apply (packing_roundtrip 5 1); lia. Defined.

(** ** The packet reader *)

(** Once four bytes are there, the reader decodes them as one native word
    and asks the file object for [record_length * 4 - 4] bytes. *)
Lemma get_next_packet_word (host : byteorder) (k : stream_kind)
    (b0 b1 b2 b3 : byte) (rest : list byte) :
  get_next_packet host (Stream k (b0 :: b1 :: b2 :: b3 :: rest)) =
    let head0 := uint32_native host b0 b1 b2 b3 in
    let '(r, f) := read (record_length_of head0 * 4 - 4) (Stream k rest) in
    match r with
    | Raise _ => (Raise EOFError, f)
    | Ok event_data => (Ok (event_data, data_id_of head0), f)
    end.
Proof. reflexivity. Qed.

Lemma read_nonneg (size : Z) (f : stream) :
  0 ≤ size →
  read size f = (Ok (take (Z.to_nat size) (remaining f)),
                 Stream (kind f) (drop (Z.to_nat size) (remaining f))).
Proof. intros Hsize. unfold read. by rewrite decide_False by lia. Qed.

Lemma byte_val_range (b : byte) : 0 ≤ byte_val b < 256.
Proof.
  unfold byte_val. pose proof (Byte.to_N_bounded b) as Hb.
  split; [apply N2Z.is_nonneg | lia].
Qed.

Lemma uint32_native_range (host : byteorder) (b0 b1 b2 b3 : byte) :
  0 ≤ uint32_native host b0 b1 b2 b3 < 2 ^ 32.
Proof.
  pose proof (byte_val_range b0). pose proof (byte_val_range b1).
  pose proof (byte_val_range b2). pose proof (byte_val_range b3).
  destruct host; unfold uint32_native; lia.
Qed.

(** [from_bytes] on four bytes is the native word of a host of the byte
    order that its flag names. *)
Lemma from_bytes_word (host : byteorder) (b0 b1 b2 b3 : byte) :
  from_bytes [b0; b1; b2; b3]
    match host with little => false | big => true end
  = uint32_native host b0 b1 b2 b3.
Proof.
  destruct host; unfold from_bytes, uint32_native; simpl;
    rewrite !Z.shiftl_mul_pow2 by lia; simpl; lia.
Qed.

(** C2. When the leading word announces a record of [n >= 1] words and the
    stream holds at least [(n - 1) * 4] more bytes, the packet that
    [get_next_packet] returns carries exactly these [(n - 1) * 4] bytes,
    the ones that follow the leading word, with the identifier of the
    leading word; the cursor stops right after them. *)
Theorem payload_follows_leading_word (host : byteorder) (k : stream_kind)
    (b0 b1 b2 b3 : byte) (rest : list byte) (n : Z) :
  record_length_of (uint32_native host b0 b1 b2 b3) = n →
  1 ≤ n →
  (n - 1) * 4 ≤ Z.of_nat (length rest) →
  let size := Z.to_nat ((n - 1) * 4) in
  get_next_packet host (Stream k (b0 :: b1 :: b2 :: b3 :: rest)) =
    (Ok (take size rest, data_id_of (uint32_native host b0 b1 b2 b3)),
     Stream k (drop size rest))
  ∧ Z.of_nat (length (take size rest)) = (n - 1) * 4.
Proof.
  intros Hn Hpos Hlen size. subst size. split.
  - rewrite get_next_packet_word. cbn zeta. rewrite Hn.
    rewrite read_nonneg by lia. simpl.
    by replace (n * 4 - 4) with ((n - 1) * 4) by lia.
  - rewrite length_take. lia.
Qed.

(** The scenario of the specification: five words announced, identifier 1,
    sixteen bytes of payload, on a little-endian and on a big-endian host. *)
Example five_words_sixteen_bytes (k : stream_kind) (payload : list byte) :
  length payload = 16%nat →
  get_next_packet little (Stream k ([x05; x00; x04; x00] ++ payload))
    = (Ok (payload, 1), Stream k [])
  ∧ get_next_packet big (Stream k ([x00; x04; x00; x05] ++ payload))
    = (Ok (payload, 1), Stream k []).
Proof.
  intros Hlen. split; simpl app; rewrite get_next_packet_word; cbn zeta;
    (rewrite read_nonneg by (vm_compute; discriminate)); simpl remaining;
    change (Z.to_nat _) with 16%nat;
    rewrite take_ge, drop_ge by lia; reflexivity.
Qed.

(** The same scenario on one stream of twenty bytes. *)
Lemma payload_follows_leading_word_witness :
  let payload := [x10; x11; x12; x13; x14; x15; x16; x17;
                  x18; x19; x1a; x1b; x1c; x1d; x1e; x1f] in
  get_next_packet little
    (Stream buffered_reader (x05 :: x00 :: x04 :: x00 :: payload)) =
    (Ok (payload, 1), Stream buffered_reader [])
  ∧ Z.of_nat (length payload) = (5 - 1) * 4.
Proof.
  intros payload.
  apply (payload_follows_leading_word little buffered_reader
           x05 x00 x04 x00 payload 5).
  - reflexivity.
  - lia.
  - simpl. lia.
Defined.

(** C3.  The reader at the inputs where it misses what its own handlers
    are there for.  A valid leading word announces five words and three of
    the sixteen payload bytes follow: the read of the payload sits in the
    handler that prints "No more data..." and raises [EOFError], but a short
    read raises nothing, so the three bytes are handed out as a packet.  On
    the empty stream the call raises, from [head[0]], which sits after the
    handler of the leading word, instead of ending the stream normally. *)
Lemma short_payload_is_returned :
  record_length_of (uint32_native little x05 x00 x04 x00) * 4 - 4 = 16
  ∧ get_next_packet little
      (Stream buffered_reader [x05; x00; x04; x00; x01; x02; x03])
    = (Ok ([x01; x02; x03], 1), Stream buffered_reader [])
  ∧ raises (get_next_packet little (Stream buffered_reader [])).1.
Proof. repeat split. Qed.

(** The outcomes of the reader on a stream that ends early, as the code
    stands: at a packet boundary the empty stream raises [IndexError] (the
    word array is empty), one to three bytes raise the generic header
    failure, and after a leading word announcing [n >= 1] words fewer than
    [n * 4 - 4] bytes are returned as they are. *)
Theorem reader_outcomes (host : byteorder) (k : stream_kind) :
  get_next_packet host (Stream k []) = (Raise IndexError, Stream k [])
  ∧ (∀ bs : list byte,
       (1 ≤ length bs ≤ 3)%nat →
       get_next_packet host (Stream k bs) =
         (Raise (Exception "Failed to read in the event orca header."), Stream k [])
       ∧ (get_next_packet host (Stream k bs)).1
           ≠ (get_next_packet host (Stream k [])).1)
  ∧ (∀ (b0 b1 b2 b3 : byte) (rest : list byte),
       let head0 := uint32_native host b0 b1 b2 b3 in
       1 ≤ record_length_of head0 →
       Z.of_nat (length rest) < record_length_of head0 * 4 - 4 →
       get_next_packet host (Stream k (b0 :: b1 :: b2 :: b3 :: rest)) =
         (Ok (rest, data_id_of head0), Stream k [])).
Proof.
  split; [reflexivity |]. split.
  - intros bs Hlen.
    destruct bs as [| a [| b [| c [| d bs]]]]; simpl in Hlen; try lia;
      (split; [reflexivity | discriminate]).
  - intros b0 b1 b2 b3 rest head0 Hpos Hshort.
    rewrite get_next_packet_word. cbn zeta. fold head0.
    rewrite read_nonneg by lia. simpl.
    rewrite take_ge, drop_ge by lia. reflexivity.
Qed.

Lemma reader_outcomes_witness :
  get_next_packet little (Stream buffered_reader [x05; x00])
    = (Raise (Exception "Failed to read in the event orca header."),
       Stream buffered_reader [])
  ∧ get_next_packet little
      (Stream buffered_reader [x05; x00; x04; x00; x01; x02; x03])
    = (Ok ([x01; x02; x03], data_id_of (uint32_native little x05 x00 x04 x00)),
       Stream buffered_reader []).
Proof.
  destruct (reader_outcomes little buffered_reader) as (_ & Hhead & Hpayload).
  split.
  - apply (Hhead [x05; x00]). simpl. lia.
  - apply (Hpayload x05 x00 x04 x00 [x01; x02; x03]).
    + vm_compute. discriminate.
    + vm_compute. reflexivity.
Defined.

(** A buffered binary file whose next leading word announces zero words:
    the size handed to [read] is -4, the file object refuses it, and the
    reader raises [EOFError]; the two bytes that follow stay unread. *)
Lemma zero_length_on_buffered_file :
  record_length_of (uint32_native little x00 x00 x04 x00) = 0
  ∧ get_next_packet little
      (Stream buffered_reader [x00; x00; x04; x00; xaa; xbb])
    = (Raise EOFError, Stream buffered_reader [xaa; xbb]).
Proof. split; reflexivity. Qed.

(** C10, as the reader has it.  A leading word that announces zero words
    makes the size of the payload read [0 * 4 - 4 = -4].  A file object
    that takes a negative size as "up to the end" returns every remaining
    byte, and the packet carries them all, without an error; a buffered
    binary file refuses the size, and the reader turns the refusal into
    [EOFError], leaving the cursor after the leading word. *)
Theorem zero_record_length (host : byteorder) (k : stream_kind)
    (b0 b1 b2 b3 : byte) (rest : list byte) :
  record_length_of (uint32_native host b0 b1 b2 b3) = 0 →
  record_length_of (uint32_native host b0 b1 b2 b3) * 4 - 4 = -4
  ∧ get_next_packet host (Stream k (b0 :: b1 :: b2 :: b3 :: rest)) =
      match k with
      | read_all_on_negative =>
          (Ok (rest, data_id_of (uint32_native host b0 b1 b2 b3)), Stream k [])
      | buffered_reader => (Raise EOFError, Stream k rest)
      end.
Proof.
  intros Hzero. split; [lia |].
  rewrite get_next_packet_word. cbn zeta. rewrite Hzero.
  destruct k; reflexivity.
Qed.

Lemma zero_record_length_witness :
  record_length_of (uint32_native big x00 x04 x00 x00) * 4 - 4 = -4
  ∧ get_next_packet big
      (Stream read_all_on_negative [x00; x04; x00; x00; xaa; xbb]) =
      (Ok ([xaa; xbb], data_id_of (uint32_native big x00 x04 x00 x00)),
       Stream read_all_on_negative []).
Proof.
  apply (zero_record_length big read_all_on_negative x00 x04 x00 x00 [xaa; xbb]).
  reflexivity.
Defined.

(** ** Byte order *)

(** One file and one packet stream, read on hosts of the two byte orders:
    the preamble words and the leading word come out different. *)
Lemma host_order_decides :
  let plist := λ _ : list byte, Ok (PDict []) in
  parse_header little plist [x01; x00; x00; x00; x00; x00; x00; x00]
    = Ok (1, 0, PDict [])
  ∧ parse_header big plist [x01; x00; x00; x00; x00; x00; x00; x00]
    = Ok (16777216, 0, PDict [])
  ∧ get_next_packet little (Stream buffered_reader [x01; x00; x04; x00])
    = (Ok ([], 1), Stream buffered_reader [])
  ∧ get_next_packet big (Stream buffered_reader [x01; x00; x04; x00])
    = (Ok ([], 64), Stream buffered_reader []).
Proof. repeat split. Qed.

(** C6, as the module has it.  Neither function takes a byte order from
    its caller.  [parse_header] sets the flag of [from_bytes] from
    [sys.byteorder] and the packet reader reinterprets the four bytes as a
    native [uint32], so the two preamble words and every leading word are
    decoded in the byte order of the host. *)
Theorem words_in_host_order (host : byteorder)
    (plist : list byte → result pyval) (k : stream_kind)
    (b0 b1 b2 b3 b4 b5 b6 b7 : byte) (rest : list byte) :
  parse_header host plist (b0 :: b1 :: b2 :: b3 :: b4 :: b5 :: b6 :: b7 :: rest) =
    (let i := uint32_native host b0 b1 b2 b3 in
     let j := uint32_native host b4 b5 b6 b7 in
     do header_dict <- plist (take (Z.to_nat j) rest);
     Ok (i, j, header_dict))
  ∧ ∃ r f,
      read (record_length_of (uint32_native host b0 b1 b2 b3) * 4 - 4)
        (Stream k rest) = (r, f)
      ∧ get_next_packet host (Stream k (b0 :: b1 :: b2 :: b3 :: rest)) =
          match r with
          | Raise _ => (Raise EOFError, f)
          | Ok event_data =>
              (Ok (event_data, data_id_of (uint32_native host b0 b1 b2 b3)), f)
          end.
Proof.
  split.
  - unfold parse_header. rewrite read_nonneg by lia.
    change (Z.to_nat 8) with 8%nat. simpl remaining. simpl kind.
    cbn [take drop bind].
    rewrite !from_bytes_word.
    pose proof (uint32_native_range host b4 b5 b6 b7) as Hj.
    rewrite read_nonneg by lia. reflexivity.
  - rewrite get_next_packet_word. cbn zeta.
    destruct (read _ _) as [r f]. by exists r, f.
Qed.

(** ** Dictionaries *)

Section Dict.
Context {V : Type}.
Implicit Types (d : list (string * V)) (k : string) (v : V).

Lemma dict_get_Some_elem_of d k v : dict_get k d = Some v → (k, v) ∈ d.
Proof.
  induction d as [| [k' v'] d IH]; simpl; [done |].
  case_decide as Hk.
  - intros [= ->]. subst k'. left.
  - intros Hget. right. by apply IH.
Qed.

Lemma dict_get_is_Some d k : is_Some (dict_get k d) ↔ k ∈ dict_keys d.
Proof.
  unfold dict_keys. induction d as [| [k' v'] d IH]; simpl.
  - split; [by intros [? ?] | by intros ?%elem_of_nil].
  - case_decide as Hk.
    + subst k'. split; [intros _; left | eauto].
    + rewrite IH. split; [by right |].
      intros [? | ?]%elem_of_cons; [congruence | done].
Qed.

Lemma dict_get_None d k : dict_get k d = None ↔ k ∉ dict_keys d.
Proof. rewrite <- dict_get_is_Some, eq_None_not_Some. done. Qed.

Lemma dict_get_key d k : k ∈ dict_keys d → ∃ v, dict_get k d = Some v ∧ (k, v) ∈ d.
Proof.
  intros [v Hv]%dict_get_is_Some. exists v. eauto using dict_get_Some_elem_of.
Qed.

Lemma dict_set_same d k v : dict_get k d = Some v → dict_set k v d = d.
Proof.
  induction d as [| [k' v'] d IH]; simpl; [done |].
  case_decide as Hk.
  - by intros [= ->].
  - intros Hget. by rewrite IH.
Qed.

Lemma dict_get_set_eq d k v : dict_get k (dict_set k v d) = Some v.
Proof.
  induction d as [| [k' v'] d IH]; simpl.
  - by rewrite decide_True.
  - case_decide as Hk; simpl; [by rewrite decide_True | by rewrite decide_False].
Qed.

Lemma dict_get_set_ne d k k' v : k ≠ k' → dict_get k' (dict_set k v d) = dict_get k' d.
Proof.
  intros Hne. induction d as [| [k0 v0] d IH]; simpl.
  - by rewrite decide_False.
  - case_decide as Hk; simpl.
    + subst k0. by rewrite !decide_False.
    + case_decide; [done | apply IH].
Qed.

End Dict.

Lemma getitem_dict (v x : pyval) (k : string) :
  getitem v k = Ok x → ∃ kvs, v = PDict kvs ∧ dict_get k kvs = Some x.
Proof.
  destruct v as [| | | | | | | kvs]; simpl; try discriminate.
  destruct (dict_get k kvs) as [y |] eqn:Hget; [| discriminate].
  intros [= ->]. eauto.
Qed.

Lemma getitem_not_ValueError (v : pyval) (k msg : string) :
  getitem v k ≠ Raise (ValueError msg).
Proof.
  destruct v as [| | | | | | | kvs]; simpl; try discriminate.
  by destruct (dict_get k kvs).
Qed.

Lemma store_same (parent child : pyval) (k : string) :
  getitem parent k = Ok child → store parent k child = parent.
Proof.
  intros (kvs & -> & Hget)%getitem_dict. simpl. by rewrite dict_set_same.
Qed.

Lemma getitem_store_eq (kvs : list (string * pyval)) (k : string) (x : pyval) :
  getitem (store (PDict kvs) k x) k = Ok x.
Proof. simpl. by rewrite dict_get_set_eq. Qed.

(** ** The loops *)

Lemma for_each_app {A S : Type} (body : S → A → result S) (xs ys : list A) (s : S) :
  for_each body (xs ++ ys) s = do s' <- for_each body xs s; for_each body ys s'.
Proof.
  revert s. induction xs as [| x xs IH]; intros s; simpl; [done |].
  destruct (body s x) as [s' | e]; simpl; [apply IH | done].
Qed.

Lemma for_each_fmap {A B S : Type} (body : S → B → result S) (g : A → B)
    (xs : list A) (s : S) :
  for_each body (g <$> xs) s = for_each (λ s x, body s (g x)) xs s.
Proof.
  revert s. induction xs as [| x xs IH]; intros s; simpl; [done |].
  destruct (body s (g x)) as [s' | e]; simpl; [apply IH | done].
Qed.

(** ** The run number *)

Lemma run_number_loop_skip (pre rest : list pyval) :
  Forall (λ d, is_dict d = true) pre →
  Forall (λ d, has_key "Run Control" d = false) pre →
  run_number_loop (pre ++ rest) = run_number_loop rest.
Proof.
  induction pre as [| d pre IH]; intros Hdict Hlack; [done |].
  apply Forall_cons in Hdict as [Hd Hdict]. apply Forall_cons in Hlack as [Hl Hlack].
  destruct d as [| | | | | | | kvs]; try discriminate.
  simpl in Hl |- *. rewrite Hl. simpl. by apply IH.
Qed.

Lemma run_number_loop_found (d rc : pyval) (rest : list pyval) :
  getitem d "Run Control" = Ok rc →
  run_number_loop (d :: rest) = getitem rc "RunNumber".
Proof.
  intros Hget. destruct (getitem_dict _ _ _ Hget) as (kvs & -> & Hkvs).
  cbn [run_number_loop contains bind].
  rewrite bool_decide_eq_true_2 by (apply dict_get_is_Some; eauto).
  by rewrite Hget.
Qed.

Lemma run_number_loop_ValueError (ds : list pyval) (msg : string) :
  Forall (λ d, is_dict d = true) ds →
  run_number_loop ds = Raise (ValueError msg) →
  Forall (λ d, has_key "Run Control" d = false) ds.
Proof.
  induction ds as [| d ds IH]; intros Hdict Hraise; [constructor |].
  apply Forall_cons in Hdict as [Hd Hdict].
  destruct d as [| | | | | | | kvs]; try discriminate.
  destruct (has_key "Run Control" (PDict kvs)) eqn:Hkey.
  - exfalso. simpl in Hkey. apply bool_decide_eq_true_1 in Hkey.
    apply dict_get_key in Hkey as (rc & Hrc & _).
    rewrite (run_number_loop_found (PDict kvs) rc) in Hraise
      by (simpl; by rewrite Hrc).
    by apply getitem_not_ValueError in Hraise.
  - constructor; [done |]. apply IH; [done |].
    simpl in Hkey. simpl in Hraise. by rewrite Hkey in Hraise.
Qed.

(** C9. For a header whose run history is a list of dictionaries,
    [get_run_number] skips the entries that have no run-control key and
    returns the run-number field of the first entry that has one; it raises
    [ValueError] (the missing-run-number failure) exactly when no entry has
    the key, the empty history included, and then with the message of the
    module. *)
Theorem run_number_of_first_entry (header_dict oi : pyval) (ds : list pyval) :
  getitem header_dict "ObjectInfo" = Ok oi →
  getitem oi "DataChain" = Ok (PList ds) →
  Forall (λ d, is_dict d = true) ds →
  (∀ pre d post rc,
     ds = pre ++ d :: post →
     Forall (λ d', has_key "Run Control" d' = false) pre →
     getitem d "Run Control" = Ok rc →
     get_run_number header_dict = getitem rc "RunNumber")
  ∧ ((∃ msg, get_run_number header_dict = Raise (ValueError msg))
     ↔ Forall (λ d, has_key "Run Control" d = false) ds)
  ∧ (Forall (λ d, has_key "Run Control" d = false) ds →
     get_run_number header_dict = Raise (ValueError "No run number found in header!")).
Proof.
  intros Hoi Hchain Hdict.
  assert (Hrun : get_run_number header_dict = run_number_loop ds).
  { unfold get_run_number. rewrite Hoi. simpl. rewrite Hchain. done. }
  assert (Hnone : Forall (λ d, has_key "Run Control" d = false) ds →
                  run_number_loop ds = Raise (ValueError "No run number found in header!")).
  { intros Hlack. rewrite <- (app_nil_r ds). by rewrite run_number_loop_skip. }
  rewrite Hrun. split; [| split].
  - intros pre d post rc -> Hlack Hrc.
    apply Forall_app in Hdict as [Hpre _].
    rewrite run_number_loop_skip by done. by apply run_number_loop_found.
  - split.
    + intros [msg Hraise]. by eapply run_number_loop_ValueError.
    + intros Hlack. eexists. by apply Hnone.
  - done.
Qed.

Lemma run_number_of_first_entry_witness :
  get_run_number one_card_header = Ok (PInt 117).
Proof.
  pose (chain :=
          [PDict [("Document", PStr "legend.Orca")];
           PDict [("Run Control", PDict [("RunNumber", PInt 117)])];
           PDict [("Run Control", PDict [("RunNumber", PInt 118)])]]).
  destruct (run_number_of_first_entry one_card_header
              (PDict [("Crates",
                       PList [PDict [("CrateNumber", PInt 2);
                                     ("Cards",
                                      PList [PDict [("Class Name", PStr "ORSIS3302Model");
                                                    ("Card", PInt 3)]])]]);
                      ("DataChain", PList chain)])
              chain) as [Hfirst _].
  - reflexivity.
  - reflexivity.
  - repeat constructor.
  - apply (Hfirst [PDict [("Document", PStr "legend.Orca")]]
             (PDict [("Run Control", PDict [("RunNumber", PInt 117)])])
             [PDict [("Run Control", PDict [("RunNumber", PInt 118)])]]
             (PDict [("RunNumber", PInt 117)])).
    + reflexivity.
    + repeat constructor.
    + reflexivity.
Defined.

(** ** Tables built by successive assignments *)

Section Assignments.
Context {V : Type}.
Implicit Types (t : gmap Z V) (ps : list (Z * V)) (id : Z) (v : V).

Lemma assign_all_notin ps t id :
  id ∉ ps.*1 → foldl assign t ps !! id = t !! id.
Proof.
  revert t. induction ps as [| [k x] ps IH]; intros t Hnotin; simpl; [done |].
  apply not_elem_of_cons in Hnotin as [Hne Hnotin].
  rewrite IH by done. unfold assign. simpl in *. by rewrite lookup_insert_ne.
Qed.

Lemma assign_all_last ps1 ps2 t id v :
  id ∉ ps2.*1 → foldl assign t (ps1 ++ (id, v) :: ps2) !! id = Some v.
Proof.
  intros Hnotin. rewrite foldl_app. simpl.
  rewrite assign_all_notin by done. unfold assign. simpl. by rewrite lookup_insert_eq.
Qed.

Lemma assign_all_Some ps t id v :
  foldl assign t ps !! id = Some v → (id, v) ∈ ps ∨ t !! id = Some v.
Proof.
  revert t. induction ps as [| [k x] ps IH]; intros t Hlook; simpl in *; [by right |].
  apply IH in Hlook as [Hin | Hlook]; [left; by right |].
  unfold assign in Hlook. simpl in Hlook.
  apply lookup_insert_Some in Hlook as [[-> ->] | [_ Hlook]]; [left; left | by right].
Qed.

Lemma assign_all_is_Some ps t (p : Z * V) :
  p ∈ ps → is_Some (foldl assign t ps !! p.1).
Proof.
  induction ps as [| q ps IH] using rev_ind; [by intros ?%elem_of_nil |].
  intros Hin. rewrite foldl_app. simpl. unfold assign at 1.
  destruct (decide (q.1 = p.1)) as [-> | Hne].
  - rewrite lookup_insert_eq. eauto.
  - rewrite lookup_insert_ne by done. apply IH.
    apply elem_of_app in Hin as [Hin | Hin]; [done |].
    apply list_elem_of_singleton in Hin. by subst q.
Qed.

End Assignments.

(** ** The declaration tree *)

Lemma declared_id_walk (dd : pyval) (class_key super_key : string) (id : Z) :
  declared_id dd class_key super_key = Ok id → (class_key, super_key) ∈ walk dd.
Proof.
  unfold declared_id, leaf_field, walk, super_keys_of.
  destruct (getitem dd class_key) as [c |] eqn:Hc; [| discriminate].
  destruct (getitem_dict _ _ _ Hc) as (classes & -> & Hclasses).
  cbn [bind]. destruct (getitem c super_key) as [l |] eqn:Hl; [| discriminate].
  destruct (getitem_dict _ _ _ Hl) as (leaves & -> & Hleaves).
  intros _. cbn [keys]. apply list_elem_of_bind. exists class_key. split.
  - rewrite Hc. cbn [bind keys]. apply list_elem_of_fmap_2.
    apply dict_get_is_Some. eauto.
  - apply dict_get_is_Some. eauto.
Qed.

(** In a tree of the expected shape every class is a dictionary of leaves
    that pass the test. *)
Lemma description_ok_classes (leaf_ok : pyval → bool) (header_dict : pyval) :
  description_ok leaf_ok header_dict = true →
  ∃ classes,
    getitem header_dict "dataDescription" = Ok (PDict classes)
    ∧ ∀ class_key, class_key ∈ dict_keys classes →
        ∃ leaves,
          getitem (PDict classes) class_key = Ok (PDict leaves)
          ∧ ∀ super_key, super_key ∈ dict_keys leaves →
              ∃ l, getitem (PDict leaves) super_key = Ok l ∧ leaf_ok l = true.
Proof.
  unfold description_ok.
  destruct (getitem header_dict "dataDescription") as [dd |]; [| discriminate].
  destruct dd as [| | | | | | | classes]; try discriminate.
  intros Hall. exists classes. split; [done |].
  rewrite forallb_forall in Hall. intros class_key Hkey.
  apply dict_get_key in Hkey as (c & Hget & Hin).
  specialize (Hall (class_key, c)). rewrite <- list_elem_of_In in Hall.
  specialize (Hall Hin). simpl in Hall.
  destruct c as [| | | | | | | leaves]; try discriminate.
  exists leaves. split; [simpl; by rewrite Hget |].
  rewrite forallb_forall in Hall. intros super_key Hsuper.
  apply dict_get_key in Hsuper as (l & Hl & Hlin).
  specialize (Hall (super_key, l)). rewrite <- list_elem_of_In in Hall.
  exists l. split; [simpl; by rewrite Hl | by apply Hall].
Qed.

Lemma walk_inv (classes : list (string * pyval)) (class_key super_key : string) :
  (class_key, super_key) ∈ walk (PDict classes) →
  class_key ∈ dict_keys classes
  ∧ super_key ∈ super_keys_of (PDict classes) class_key.
Proof.
  unfold walk. cbn [keys]. intros (ck & Hin & Hck)%list_elem_of_bind.
  apply list_elem_of_fmap in Hin as (sk & [= -> ->] & Hsk). done.
Qed.

Lemma leaf_has_id_inv (l : pyval) :
  leaf_has_id l = true → ∃ raw id, getitem l "dataId" = Ok raw ∧ rshift18 raw = Ok id.
Proof.
  unfold leaf_has_id. destruct (getitem l "dataId") as [raw |]; [| discriminate].
  cbn [bind]. destruct (rshift18 raw) as [id |] eqn:Hid; [| discriminate].
  intros _. by exists raw, id.
Qed.

(** Every entry of the walk of such a tree has a decoded identifier ... *)
Lemma walk_declared_id (header_dict : pyval) (classes : list (string * pyval))
    (class_key super_key : string) :
  description_ok leaf_has_id header_dict = true →
  getitem header_dict "dataDescription" = Ok (PDict classes) →
  (class_key, super_key) ∈ walk (PDict classes) →
  ∃ id, declared_id (PDict classes) class_key super_key = Ok id.
Proof.
  intros (classes' & Hdd & Hok)%description_ok_classes Hdd' Hin.
  rewrite Hdd in Hdd'. injection Hdd' as ->.
  apply walk_inv in Hin as [Hck Hsk].
  destruct (Hok _ Hck) as (leaves & Hc & Hleaves).
  unfold super_keys_of in Hsk. rewrite Hc in Hsk. cbn [bind keys] in Hsk.
  destruct (Hleaves _ Hsk) as (l & Hl & (raw & id & Hraw & Hid)%leaf_has_id_inv).
  exists id. unfold declared_id, leaf_field.
  rewrite Hc. cbn [bind]. rewrite Hl. cbn [bind]. rewrite Hraw. done.
Qed.

Lemma description_ok_weaken (header_dict : pyval) :
  description_ok leaf_has_id_and_decoder header_dict = true →
  description_ok leaf_has_id header_dict = true.
Proof.
  unfold description_ok.
  destruct (getitem header_dict "dataDescription") as [dd |]; [| done].
  destruct dd as [| | | | | | | classes]; try done.
  rewrite !forallb_forall. intros Hall class Hin. specialize (Hall class Hin).
  destruct (class.2) as [| | | | | | | leaves]; try done.
  rewrite forallb_forall in Hall |- *. intros l Hl. specialize (Hall l Hl).
  unfold leaf_has_id_and_decoder in Hall. by apply andb_prop in Hall as [? _].
Qed.

(** ... and, when the leaves have decoders, a decoder name. *)
Lemma walk_declared (header_dict : pyval) (classes : list (string * pyval))
    (class_key super_key : string) :
  description_ok leaf_has_id_and_decoder header_dict = true →
  getitem header_dict "dataDescription" = Ok (PDict classes) →
  (class_key, super_key) ∈ walk (PDict classes) →
  ∃ id decoder_name,
    declared_id (PDict classes) class_key super_key = Ok id
    ∧ leaf_field (PDict classes) class_key super_key "decoder" = Ok decoder_name.
Proof.
  intros Hok Hdd Hin.
  destruct (walk_declared_id _ _ _ _ (description_ok_weaken _ Hok) Hdd Hin) as [id Hid].
  exists id.
  apply description_ok_classes in Hok as (classes' & Hdd' & Hok).
  rewrite Hdd in Hdd'. injection Hdd' as <-.
  apply walk_inv in Hin as [Hck Hsk].
  destruct (Hok _ Hck) as (leaves & Hc & Hleaves).
  unfold super_keys_of in Hsk. rewrite Hc in Hsk. cbn [bind keys] in Hsk.
  destruct (Hleaves _ Hsk) as (l & Hl & Hboth).
  unfold leaf_has_id_and_decoder in Hboth. apply andb_prop in Hboth as [_ Hdec].
  destruct (getitem l "decoder") as [decoder_name |] eqn:Hname; [| discriminate].
  exists decoder_name. split; [done |].
  unfold leaf_field. rewrite Hc. cbn [bind]. rewrite Hl. done.
Qed.

(** ** The decoder table *)

(** The two nested loops visit the entries of the walk one after the
    other. *)
Lemma id2dn_class_walk (dd : pyval) (class_keys : list string) (tbl : gmap Z pyval) :
  (∀ class_key, class_key ∈ class_keys →
     ∃ super_keys, (do c <- getitem dd class_key; keys c) = Ok super_keys) →
  for_each (id2dn_class dd) class_keys tbl =
    for_each (λ t e, id2dn_super dd e.1 t e.2)
      (class_keys ≫= λ class_key, pair class_key <$> super_keys_of dd class_key) tbl.
Proof.
  revert tbl. induction class_keys as [| ck cks IH]; intros tbl Hok; [done |].
  destruct (Hok ck) as [sks Hsks]; [left |].
  rewrite bind_cons, for_each_app, for_each_fmap. cbn [for_each].
  unfold id2dn_class at 1, super_keys_of. 
  destruct (getitem dd ck) as [c |]; [| discriminate]. cbn [bind] in Hsks |- *.
  rewrite Hsks. cbn [bind].
  destruct (for_each _ sks tbl) as [tbl' |]; cbn [bind]; [| done].
  apply IH. intros class_key Hin. apply Hok. by right.
Qed.

Lemma id2dn_super_assign (dd : pyval) (w : list (string * string))
    (ps : list (Z * pyval)) (tbl : gmap Z pyval) :
  Forall2 (entry_reads dd) w ps →
  for_each (λ t e, id2dn_super dd e.1 t e.2) w tbl = Ok (foldl assign tbl ps).
Proof.
  intros Hreads. revert tbl.
  induction Hreads as [| e p w ps [Hid Hdec] _ IH]; intros tbl; [done |].
  cbn [for_each foldl]. unfold id2dn_super at 1.
  unfold declared_id in Hid.
  destruct (leaf_field dd e.1 e.2 "dataId") as [raw |]; [| discriminate].
  cbn [bind] in Hid |- *. rewrite Hid, Hdec. cbn [bind]. apply IH.
Qed.

Lemma Forall2_pick {A B : Type} (R : A → B → Prop) (xs : list A) :
  (∀ x, x ∈ xs → ∃ y, R x y) → ∃ ys, Forall2 R xs ys.
Proof.
  induction xs as [| x xs IH]; intros Hex; [by exists [] |].
  destruct (Hex x) as [y Hy]; [left |].
  destruct IH as [ys Hys]; [intros x' Hin; apply Hex; by right |].
  exists (y :: ys). by constructor.
Qed.

Lemma Forall2_elem_of_l {A B : Type} (R : A → B → Prop) (xs : list A) (ys : list B) (x : A) :
  Forall2 R xs ys → x ∈ xs → ∃ y, y ∈ ys ∧ R x y.
Proof.
  induction 1 as [| x' y' xs ys Hxy _ IH]; [by intros ?%elem_of_nil |].
  intros [-> | Hin]%elem_of_cons.
  - exists y'. split; [left | done].
  - destruct (IH Hin) as (y & Hy & HR). exists y. split; [by right | done].
Qed.

Lemma Forall2_elem_of_r {A B : Type} (R : A → B → Prop) (xs : list A) (ys : list B) (y : B) :
  Forall2 R xs ys → y ∈ ys → ∃ x, x ∈ xs ∧ R x y.
Proof.
  induction 1 as [| x' y' xs ys Hxy _ IH]; [by intros ?%elem_of_nil |].
  intros [-> | Hin]%elem_of_cons.
  - exists x'. split; [left | done].
  - destruct (IH Hin) as (x & Hx & HR). exists x. split; [by right | done].
Qed.

(** The table is the result of assigning, in walk order, what each entry
    reads. *)
Lemma decoder_table_assignments (header_dict : pyval) :
  description_ok leaf_has_id_and_decoder header_dict = true →
  ∃ classes ps,
    getitem header_dict "dataDescription" = Ok (PDict classes)
    ∧ Forall2 (entry_reads (PDict classes)) (walk (PDict classes)) ps
    ∧ get_id_to_decoder_name_dict header_dict = Ok (foldl assign ∅ ps).
Proof.
  intros Hok.
  destruct (description_ok_classes _ _ Hok) as (classes & Hdd & Hclasses).
  destruct (Forall2_pick (entry_reads (PDict classes)) (walk (PDict classes)))
    as [ps Hps].
  { intros [ck sk] Hin.
    destruct (walk_declared _ _ _ _ Hok Hdd Hin) as (id & name & Hid & Hname).
    by exists (id, name). }
  exists classes, ps. split; [done |]. split; [done |].
  unfold get_id_to_decoder_name_dict. rewrite Hdd. cbn [bind keys].
  rewrite id2dn_class_walk.
  - by apply id2dn_super_assign.
  - intros ck Hck. destruct (Hclasses _ Hck) as (leaves & Hc & _).
    rewrite Hc. cbn [bind keys]. eauto.
Qed.

(** The table in terms of what the walk reads at each leaf entry. *)
Lemma decoder_table_declares (header_dict : pyval) :
  description_ok leaf_has_id_and_decoder header_dict = true →
  ∃ tbl : gmap Z pyval,
    get_id_to_decoder_name_dict header_dict = Ok tbl
    ∧ (∀ id, id ∈ dom tbl ↔ ∃ class_key super_key,
                              declares_id header_dict class_key super_key id)
    ∧ (∀ id decoder_name,
         tbl !! id = Some decoder_name →
         ∃ class_key super_key,
           declares header_dict class_key super_key id decoder_name)
    ∧ (∀ class_key super_key id decoder_name,
         declares header_dict class_key super_key id decoder_name →
         (∀ class_key' super_key' decoder_name',
            declares header_dict class_key' super_key' id decoder_name' →
            decoder_name' = decoder_name) →
         tbl !! id = Some decoder_name).
Proof.
  intros Hok.
  destruct (decoder_table_assignments _ Hok) as (classes & ps & Hdd & Hps & Htbl).
  exists (foldl assign ∅ ps). split; [done |].
  assert (Hvalue : ∀ id decoder_name,
             foldl assign ∅ ps !! id = Some decoder_name →
             ∃ class_key super_key,
               declares header_dict class_key super_key id decoder_name).
  { intros id name [Hin | Hempty]%assign_all_Some; [| by rewrite lookup_empty in Hempty].
    destruct (Forall2_elem_of_r _ _ _ _ Hps Hin) as ([ck sk] & _ & Hid & Hname).
    exists ck, sk, (PDict classes). done. }
  assert (Hkey : ∀ class_key super_key id,
             declares_id header_dict class_key super_key id →
             is_Some (foldl assign ∅ ps !! id)).
  { intros ck sk id (dd & Hdd' & Hid). rewrite Hdd in Hdd'. injection Hdd' as <-.
    pose proof (declared_id_walk _ _ _ _ Hid) as Hin.
    destruct (Forall2_elem_of_l _ _ _ _ Hps Hin) as ([id' name] & Hp & Hid' & _).
    simpl in Hid'. rewrite Hid in Hid'. injection Hid' as <-.
    apply (assign_all_is_Some ps ∅ (id, name) Hp). }
  split; [| split].
  - intros id. rewrite elem_of_dom. split.
    + intros [name Hname]. destruct (Hvalue _ _ Hname) as (ck & sk & dd & ? & ? & ?).
      exists ck, sk, dd. done.
    + intros (ck & sk & Hdecl). by eapply Hkey.
  - done.
  - intros ck sk id name Hdecl Hagree.
    destruct Hdecl as (dd & Hdd' & Hid & Hname).
    destruct (Hkey ck sk id) as [name' Hname']; [by exists dd |].
    rewrite Hname'. f_equal.
    destruct (Hvalue _ _ Hname') as (ck' & sk' & Hdecl').
    by eapply Hagree.
Qed.

Lemma description_ok_mono (ok1 ok2 : pyval → bool) (header_dict : pyval) :
  (∀ l, ok1 l = true → ok2 l = true) →
  description_ok ok1 header_dict = true → description_ok ok2 header_dict = true.
Proof.
  intros Himpl. unfold description_ok.
  destruct (getitem header_dict "dataDescription") as [dd |]; [| done].
  destruct dd as [| | | | | | | classes]; try done.
  rewrite !forallb_forall. intros Hall class Hin. specialize (Hall class Hin).
  destruct (class.2) as [| | | | | | | leaves]; try done.
  rewrite forallb_forall in Hall |- *. intros l Hl. by apply Himpl, Hall.
Qed.

Lemma leaf_has_int_id_and_decoder_inv (l : pyval) :
  leaf_has_int_id_and_decoder l = true →
  ∃ n decoder_name,
    getitem l "dataId" = Ok (PInt n) ∧ getitem l "decoder" = Ok decoder_name.
Proof.
  unfold leaf_has_int_id_and_decoder.
  destruct (getitem l "dataId") as [raw |]; [| discriminate].
  destruct raw as [| n | | | | | |]; try discriminate.
  destruct (getitem l "decoder") as [name |]; [| discriminate].
  intros _. by exists n, name.
Qed.

(** A leaf entry with the integer [n] is read by the walk with the
    identifier [n >> 18] ... *)
Lemma leaf_entry_declares (header_dict : pyval) (class_key super_key : string)
    (n : Z) (decoder_name : pyval) :
  leaf_entry header_dict class_key super_key n decoder_name →
  declares header_dict class_key super_key (Z.shiftr n 18) decoder_name.
Proof.
  intros (dd & c & l & Hdd & Hc & Hl & Hn & Hname). exists dd.
  split; [done |]. unfold declared_id, leaf_field.
  rewrite Hc. cbn [bind]. rewrite Hl. cbn [bind]. rewrite Hn. done.
Qed.

(** ... and, in a tree whose leaves have integer identifiers, whatever the
    walk reads comes from such a leaf entry. *)
Lemma declares_leaf_entry (header_dict : pyval) (class_key super_key : string)
    (id : Z) (decoder_name : pyval) :
  description_ok leaf_has_int_id_and_decoder header_dict = true →
  declares header_dict class_key super_key id decoder_name →
  ∃ n, leaf_entry header_dict class_key super_key n decoder_name
       ∧ id = Z.shiftr n 18.
Proof.
  intros (classes & Hdd & Hclasses)%description_ok_classes (dd & Hdd' & Hid & Hname).
  rewrite Hdd in Hdd'. injection Hdd' as <-.
  pose proof (declared_id_walk _ _ _ _ Hid) as Hin.
  apply walk_inv in Hin as [Hck Hsk].
  destruct (Hclasses _ Hck) as (leaves & Hc & Hleaves).
  unfold super_keys_of in Hsk. rewrite Hc in Hsk. cbn [bind keys] in Hsk.
  destruct (Hleaves _ Hsk)
    as (l & Hl & (n & name & Hn & Hname')%leaf_has_int_id_and_decoder_inv).
  unfold declared_id, leaf_field in Hid, Hname.
  rewrite Hc in Hid, Hname. cbn [bind] in Hid, Hname.
  rewrite Hl in Hid, Hname. cbn [bind] in Hid, Hname.
  rewrite Hn in Hid. cbn [bind rshift18] in Hid. injection Hid as <-.
  rewrite Hname' in Hname. injection Hname as <-.
  exists n. split; [| done]. exists (PDict classes), (PDict leaves), l. done.
Qed.

(** C4. For a header whose declaration tree has the expected shape (two
    levels of dictionaries, leaves with an integer [dataId] and a
    [decoder]), the derived table exists; its keys are exactly the numbers
    [dataId >> 18] of the leaf entries, no more and no fewer; every value is
    the decoder name of a leaf entry whose [dataId >> 18] is the key; and
    the identifier of a leaf entry is mapped to the decoder name of that
    entry whenever all leaf entries with this identifier agree on the
    name. *)
Theorem decoder_table_exact (header_dict : pyval) :
  description_ok leaf_has_int_id_and_decoder header_dict = true →
  ∃ tbl : gmap Z pyval,
    get_id_to_decoder_name_dict header_dict = Ok tbl
    ∧ (∀ id, id ∈ dom tbl ↔
             ∃ class_key super_key n decoder_name,
               leaf_entry header_dict class_key super_key n decoder_name
               ∧ id = Z.shiftr n 18)
    ∧ (∀ id decoder_name,
         tbl !! id = Some decoder_name →
         ∃ class_key super_key n,
           leaf_entry header_dict class_key super_key n decoder_name
           ∧ id = Z.shiftr n 18)
    ∧ (∀ class_key super_key n decoder_name,
         leaf_entry header_dict class_key super_key n decoder_name →
         (∀ class_key' super_key' n' decoder_name',
            leaf_entry header_dict class_key' super_key' n' decoder_name' →
            Z.shiftr n' 18 = Z.shiftr n 18 →
            decoder_name' = decoder_name) →
         tbl !! Z.shiftr n 18 = Some decoder_name).
Proof.
  intros Hint.
  assert (Hok : description_ok leaf_has_id_and_decoder header_dict = true).
  { revert Hint. apply description_ok_mono.
    intros l (n & name & Hn & Hname)%leaf_has_int_id_and_decoder_inv.
    unfold leaf_has_id_and_decoder, leaf_has_id. by rewrite Hn, Hname. }
  destruct (decoder_table_declares _ Hok) as (tbl & Hrun & Hdom & Hvalue & Hagree).
  exists tbl. split; [done |]. split; [| split].
  - intros id. split.
    + intros [name Hlook]%elem_of_dom.
      destruct (Hvalue _ _ Hlook) as (ck & sk & Hdecl).
      destruct (declares_leaf_entry _ _ _ _ _ Hint Hdecl) as (n & Hleaf & ->).
      by exists ck, sk, n, name.
    + intros (ck & sk & n & name & Hleaf & ->). apply Hdom.
      apply leaf_entry_declares in Hleaf as (dd & Hdd & Hid & _).
      by exists ck, sk, dd.
  - intros id name Hlook. destruct (Hvalue _ _ Hlook) as (ck & sk & Hdecl).
    destruct (declares_leaf_entry _ _ _ _ _ Hint Hdecl) as (n & Hleaf & ->).
    by exists ck, sk, n.
  - intros ck sk n name Hleaf Hsame.
    apply (Hagree ck sk); [by apply leaf_entry_declares |].
    intros ck' sk' name' Hdecl'.
    destruct (declares_leaf_entry _ _ _ _ _ Hint Hdecl') as (n' & Hleaf' & Heq).
    by eapply Hsame.
Qed.

(** The leaf entries of the sample header with two instances. *)
Lemma two_instance_header_leaves (class_key super_key : string) (n : Z)
    (decoder_name : pyval) :
  leaf_entry two_instance_header class_key super_key n decoder_name →
  (super_key = "Energy" ∧ n = 262144
   ∧ decoder_name = PStr "ORSIS3302DecoderForEnergy")
  ∨ (super_key = "Mca" ∧ n = 524288
     ∧ decoder_name = PStr "ORSIS3302DecoderForMca").
Proof.
  intros (dd & c & l & Hdd & Hc & Hl & Hn & Hname).
  injection Hdd as <-. cbn [getitem dict_get] in Hc.
  case_decide; [| discriminate]. injection Hc as <-.
  cbn [getitem dict_get] in Hl.
  repeat case_decide; try discriminate; injection Hl as <-;
    injection Hn as <-; injection Hname as <-; subst; eauto.
Qed.

(** On that header the table is [{1: ...ForEnergy, 2: ...ForMca}]:
    262144 >> 18 = 1 and 524288 >> 18 = 2. *)
Lemma decoder_table_exact_witness :
  ∃ tbl : gmap Z pyval,
    get_id_to_decoder_name_dict two_instance_header = Ok tbl
    ∧ (∀ id, id ∈ dom tbl ↔ id = 1 ∨ id = 2)
    ∧ tbl !! 1 = Some (PStr "ORSIS3302DecoderForEnergy")
    ∧ tbl !! 2 = Some (PStr "ORSIS3302DecoderForMca").
Proof.
  destruct (decoder_table_exact two_instance_header eq_refl)
    as (tbl & Hrun & Hdom & _ & Hagree).
  assert (Henergy : leaf_entry two_instance_header "ORSIS3302Model" "Energy" 262144
                      (PStr "ORSIS3302DecoderForEnergy")).
  { eexists _, _, _. repeat split. }
  assert (Hmca : leaf_entry two_instance_header "ORSIS3302Model" "Mca" 524288
                   (PStr "ORSIS3302DecoderForMca")).
  { eexists _, _, _. repeat split. }
  exists tbl. split; [exact Hrun |]. split; [| split].
  - intros id. rewrite Hdom. split.
    + intros (ck & sk & n & name & Hleaf & ->).
      destruct (two_instance_header_leaves _ _ _ _ Hleaf)
        as [(_ & -> & _) | (_ & -> & _)]; [by left | by right].
    + intros [-> | ->].
      * by exists "ORSIS3302Model", "Energy", 262144, (PStr "ORSIS3302DecoderForEnergy").
      * by exists "ORSIS3302Model", "Mca", 524288, (PStr "ORSIS3302DecoderForMca").
  - apply (Hagree _ _ _ _ Henergy). intros ck sk n name Hleaf Heq.
    destruct (two_instance_header_leaves _ _ _ _ Hleaf)
      as [(_ & _ & ->) | (_ & -> & _)]; [done | discriminate Heq].
  - apply (Hagree _ _ _ _ Hmca). intros ck sk n name Hleaf Heq.
    destruct (two_instance_header_leaves _ _ _ _ Hleaf)
      as [(_ & -> & _) | (_ & _ & ->)]; [discriminate Heq | done].
Defined.

(** Two leaf entries with different decoder names decode to identifier 1.
    The call returns a table and nothing else, and the table is the one
    that the header without the first entry gives: nothing tells the
    caller that there was a collision. *)
Lemma collision_goes_unreported :
  declares colliding_header "ORGretina4MModel" "Gretina4M" 1
    (PStr "ORGretina4MWaveformDecoder")
  ∧ declares colliding_header "ORSIS3302Model" "Energy" 1
      (PStr "ORSIS3302DecoderForEnergy")
  ∧ get_id_to_decoder_name_dict colliding_header
    = Ok {[1 := PStr "ORSIS3302DecoderForEnergy"]}
  ∧ get_id_to_decoder_name_dict single_header
    = Ok {[1 := PStr "ORSIS3302DecoderForEnergy"]}.
Proof.
  split; [| split; [| split]].
  - eexists. repeat split.
  - eexists. repeat split.
  - vm_compute. reflexivity.
  - vm_compute. reflexivity.
Qed.

(** C5, as the module has it.  When several leaf entries decode to one
    identifier, the table, which is all the call returns, holds the decoder
    name of the last of them in walk order; no exception is raised and the
    earlier names are overwritten. *)
Theorem last_declaration_wins (header_dict : pyval)
    (classes : list (string * pyval)) (pre post : list (string * string))
    (class_key super_key : string) (id : Z) (decoder_name : pyval) :
  description_ok leaf_has_id_and_decoder header_dict = true →
  getitem header_dict "dataDescription" = Ok (PDict classes) →
  walk (PDict classes) = pre ++ (class_key, super_key) :: post →
  declares header_dict class_key super_key id decoder_name →
  (∀ class_key' super_key',
     (class_key', super_key') ∈ post →
     ¬ declares_id header_dict class_key' super_key' id) →
  ∃ tbl : gmap Z pyval,
    get_id_to_decoder_name_dict header_dict = Ok tbl
    ∧ tbl !! id = Some decoder_name.
Proof.
  intros Hok Hdd Hwalk (dd & Hdd' & Hid & Hname) Hlast.
  rewrite Hdd in Hdd'. injection Hdd' as <-.
  destruct (decoder_table_assignments _ Hok) as (classes' & ps & Hdd' & Hps & Htbl).
  rewrite Hdd in Hdd'. injection Hdd' as <-.
  exists (foldl assign ∅ ps). split; [done |].
  rewrite Hwalk in Hps.
  apply Forall2_app_inv_l in Hps as (ps1 & ps' & _ & Hps' & ->).
  apply Forall2_cons_inv_l in Hps' as ([id' name'] & ps2 & [Hid' Hname'] & Hps2 & ->).
  simpl in Hid', Hname'. rewrite Hid in Hid'. rewrite Hname in Hname'.
  injection Hid' as <-. injection Hname' as <-.
  apply assign_all_last.
  intros ([id' name'] & Heq & Hin)%list_elem_of_fmap. simpl in Heq. subst id'.
  destruct (Forall2_elem_of_r _ _ _ _ Hps2 Hin) as ([ck' sk'] & Hin' & Hid' & _).
  apply (Hlast ck' sk' Hin'). by exists (PDict classes).
Qed.

Lemma last_declaration_wins_witness :
  ∃ tbl : gmap Z pyval,
    get_id_to_decoder_name_dict colliding_header = Ok tbl
    ∧ tbl !! 1 = Some (PStr "ORSIS3302DecoderForEnergy").
Proof.
  apply (last_declaration_wins colliding_header
           [("ORGretina4MModel",
             PDict [("Gretina4M", leaf 262144 "ORGretina4MWaveformDecoder")]);
            ("ORSIS3302Model",
             PDict [("Energy", leaf 262151 "ORSIS3302DecoderForEnergy")])]
           [("ORGretina4MModel", "Gretina4M")] []
           "ORSIS3302Model" "Energy").
  - reflexivity.
  - reflexivity.
  - reflexivity.
  - eexists. repeat split.
  - intros ck sk Hin. by apply elem_of_nil in Hin.
Defined.

(** ** The class index *)

Lemma assign_all_mono {V : Type} (ps : list (Z * V)) (t : gmap Z V) (id : Z) :
  is_Some (t !! id) → is_Some (foldl assign t ps !! id).
Proof.
  revert t. induction ps as [| [k x] ps IH]; intros t Hsome; simpl; [done |].
  apply IH. unfold assign. simpl.
  destruct (decide (k = id)) as [-> | Hne].
  - rewrite lookup_insert_eq. eauto.
  - by rewrite lookup_insert_ne.
Qed.

(** The inner loop: every instance name is appended to the one list of the
    class, and every identifier is pointed at that list. *)
Lemma flip_super_loop (dd : pyval) (class_key : string) (a : nat)
    (super_keys : list string) (ids : list Z) (F : gmap Z (string * nat))
    (L : list (list string)) :
  Forall2 (λ super_key id, declared_id dd class_key super_key = Ok id) super_keys ids →
  for_each (flip_super dd class_key a) super_keys (FlipState F L) =
    Ok (FlipState (foldl assign F ((λ id, (id, (class_key, a))) <$> ids))
          (alter (λ l, l ++ super_keys) a L)).
Proof.
  intros Hids. revert F L.
  induction Hids as [| sk id sks ids Hid _ IH]; intros F L.
  - cbn [for_each fmap list_fmap foldl]. f_equal. f_equal.
    symmetry. apply list_alter_id. intros l. apply app_nil_r.
  - cbn [for_each]. unfold flip_super at 1. cbn [lists flipped].
    unfold declared_id in Hid.
    destruct (leaf_field dd class_key sk "dataId") as [raw |]; [| discriminate].
    cbn [bind] in Hid |- *. rewrite Hid. cbn [bind].
    rewrite IH. rewrite fmap_cons. cbn [foldl]. f_equal. f_equal.
    rewrite list_alter_alter_eq. apply list_alter_ext; [| done].
    intros l _. simpl. by rewrite <- app_assoc.
Qed.

Lemma flip_class_step (classes : list (string * pyval)) (visited : list string)
    (class_key : string) (leaves : list (string * pyval)) (st : flip_state) :
  getitem (PDict classes) class_key = Ok (PDict leaves) →
  (∀ super_key, super_key ∈ dict_keys leaves →
     ∃ id, declared_id (PDict classes) class_key super_key = Ok id) →
  flip_inv (PDict classes) visited st →
  ∃ st', flip_class (PDict classes) st class_key = Ok st'
         ∧ flip_inv (PDict classes) (visited ++ [class_key]) st'.
Proof.
  intros Hc Hleaves [Hentry Hcover]. destruct st as [F L]. cbn [flipped lists] in *.
  assert (Hkeys : super_keys_of (PDict classes) class_key = dict_keys leaves).
  { unfold super_keys_of. by rewrite Hc. }
  destruct (Forall2_pick
              (λ super_key id, declared_id (PDict classes) class_key super_key = Ok id)
              (dict_keys leaves) Hleaves) as [ids Hids].
  eexists. split.
  { unfold flip_class. cbn [flipped lists]. rewrite Hc. cbn [bind keys].
    rewrite (flip_super_loop _ _ _ _ ids) by done.
    rewrite alter_app_r_alt by done. rewrite Nat.sub_diag. simpl alter. done. }
  split; cbn [flipped lists].
  - intros id ck a [Hin | Hold]%assign_all_Some.
    + apply list_elem_of_fmap in Hin as (id' & [= -> -> ->] & Hid').
      split; [by rewrite list_lookup_middle, Hkeys |].
      split; [apply elem_of_app; right; left |].
      destruct (Forall2_elem_of_r _ _ _ _ Hids Hid') as (sk & _ & Hsk). eauto.
    + destruct (Hentry _ _ _ Hold) as (Hlist & Hvisited & Hdecl).
      split; [by apply lookup_app_l_Some |].
      split; [apply elem_of_app; by left | done].
  - intros ck sk id Hck Hid.
    apply elem_of_app in Hck as [Hck | Hck].
    + apply assign_all_mono. by eapply Hcover.
    + apply list_elem_of_singleton in Hck. subst ck.
      pose proof (declared_id_walk _ _ _ _ Hid) as Hin.
      apply walk_inv in Hin as [_ Hsk]. rewrite Hkeys in Hsk.
      destruct (Forall2_elem_of_l _ _ _ _ Hids Hsk) as (id' & Hid' & Heq).
      rewrite Hid in Heq. injection Heq as <-.
      apply (assign_all_is_Some _ F (id, (class_key, length L))).
      by apply (list_elem_of_fmap_2 (λ id, (id, (class_key, length L)))).
Qed.

Lemma flip_class_loop (classes : list (string * pyval))
    (class_keys visited : list string) (st : flip_state) :
  (∀ class_key, class_key ∈ class_keys →
     ∃ leaves,
       getitem (PDict classes) class_key = Ok (PDict leaves)
       ∧ ∀ super_key, super_key ∈ dict_keys leaves →
           ∃ id, declared_id (PDict classes) class_key super_key = Ok id) →
  flip_inv (PDict classes) visited st →
  ∃ st', for_each (flip_class (PDict classes)) class_keys st = Ok st'
         ∧ flip_inv (PDict classes) (visited ++ class_keys) st'.
Proof.
  revert visited st. induction class_keys as [| ck cks IH]; intros visited st Hok Hinv.
  - exists st. by rewrite app_nil_r.
  - destruct (Hok ck) as (leaves & Hc & Hleaves); [left |].
    destruct (flip_class_step _ _ _ _ _ Hc Hleaves Hinv) as (st1 & Hstep & Hinv1).
    destruct (IH (visited ++ [ck]) st1) as (st' & Hloop & Hinv'); [| done |].
    { intros ck' Hin. apply Hok. by right. }
    exists st'. cbn [for_each]. rewrite Hstep. cbn [bind].
    split; [done |]. by rewrite <- app_assoc in Hinv'.
Qed.

(** With one class of two instances, identifiers 1 and 2, the entry of the
    first instance lists both instance names: the list object is the one the
    loop went on appending to. *)
Lemma first_instance_lists_both :
  declares_id two_instance_header "ORSIS3302Model" "Energy" 1
  ∧ ∃ st, flip_data_ids two_instance_header = Ok st
          ∧ flipped_at st 1 = Some ("ORSIS3302Model", ["Energy"; "Mca"])
          ∧ flipped_at st 1 ≠ Some ("ORSIS3302Model", ["Energy"]).
Proof.
  split.
  - eexists. split; reflexivity.
  - eexists. split; [vm_compute; reflexivity |].
    split; [vm_compute; reflexivity | vm_compute; discriminate].
Qed.

(** C7, as the module has it.  For a header whose declaration tree has the
    expected shape, the index has an entry exactly for the decoded
    identifiers of the leaf entries; the entry of an identifier names a
    class that declares it, and the list it is read with is the complete
    list of the instance names of that class, in declaration order, for the
    first instance of the class as for the last. *)
Theorem class_index_lists_whole_class (header_dict : pyval) :
  description_ok leaf_has_id header_dict = true →
  ∃ st dd,
    getitem header_dict "dataDescription" = Ok dd
    ∧ flip_data_ids header_dict = Ok st
    ∧ (∀ id, is_Some (flipped_at st id) ↔
             ∃ class_key super_key, declares_id header_dict class_key super_key id)
    ∧ (∀ id class_key l,
         flipped_at st id = Some (class_key, l) →
         (∃ super_key, declares_id header_dict class_key super_key id)
         ∧ l = super_keys_of dd class_key).
Proof.
  intros Hok.
  destruct (description_ok_classes _ _ Hok) as (classes & Hdd & Hclasses).
  destruct (flip_class_loop classes (dict_keys classes) [] (FlipState ∅ []))
    as (st & Hrun & Hentry & Hcover).
  { intros ck Hck. destruct (Hclasses _ Hck) as (leaves & Hc & _).
    exists leaves. split; [done |]. intros sk Hsk.
    apply (walk_declared_id header_dict); [done | done |].
    unfold walk. cbn [keys]. apply list_elem_of_bind. exists ck. split; [| done].
    unfold super_keys_of. rewrite Hc. cbn [bind keys]. by apply list_elem_of_fmap_2. }
  { split.
    - intros id ck a Hlook. cbn [flipped] in Hlook. by rewrite lookup_empty in Hlook.
    - intros ck sk id Hin. by apply elem_of_nil in Hin. }
  rewrite app_nil_l in Hentry, Hcover.
  exists st, (PDict classes). split; [done |]. split.
  { unfold flip_data_ids. rewrite Hdd. done. }
  assert (Hread : ∀ id class_key l,
             flipped_at st id = Some (class_key, l) →
             (∃ super_key, declares_id header_dict class_key super_key id)
             ∧ l = super_keys_of (PDict classes) class_key).
  { intros id ck l. unfold flipped_at.
    destruct (flipped st !! id) as [[ck' a] |] eqn:Hlook; [| discriminate].
    destruct (Hentry _ _ _ Hlook) as (Hlist & _ & sk & Hsk).
    rewrite Hlist. intros [= <- <-]. split; [| done].
    exists sk, (PDict classes). done. }
  split; [| done].
  intros id. split.
  - intros [[ck l] Hat]. destruct (Hread _ _ _ Hat) as [[sk Hsk] _]. eauto.
  - intros (ck & sk & dd & Hdd' & Hid). rewrite Hdd in Hdd'. injection Hdd' as <-.
    pose proof (declared_id_walk _ _ _ _ Hid) as Hin.
    apply walk_inv in Hin as [Hck _].
    destruct (Hcover _ _ _ Hck Hid) as [[ck' a] Hlook].
    destruct (Hentry _ _ _ Hlook) as (Hlist & _).
    unfold flipped_at. rewrite Hlook, Hlist. eauto.
Qed.

Lemma class_index_lists_whole_class_witness :
  ∃ st dd,
    getitem two_instance_header "dataDescription" = Ok dd
    ∧ flip_data_ids two_instance_header = Ok st
    ∧ (∀ id, is_Some (flipped_at st id) ↔
             ∃ class_key super_key, declares_id two_instance_header class_key super_key id)
    ∧ (∀ id class_key l,
         flipped_at st id = Some (class_key, l) →
         (∃ super_key, declares_id two_instance_header class_key super_key id)
         ∧ l = super_keys_of dd class_key).
Proof. apply (class_index_lists_whole_class two_instance_header). reflexivity. Defined.

(** ** Object info *)

Lemma card_ok_inv (card : pyval) :
  card_ok card = true →
  ∃ kvs class_name, card = PDict kvs ∧ getitem card "Class Name" = Ok class_name.
Proof.
  unfold card_ok. destruct (getitem card "Class Name") as [cn |] eqn:Hcn; [| discriminate].
  destruct (getitem_dict _ _ _ Hcn) as (kvs & -> & _). eauto.
Qed.

Lemma stamp_card_selected (name : string) (crate number class_name : pyval)
    (kvs : list (string * pyval)) :
  getitem crate "CrateNumber" = Ok number →
  getitem (PDict kvs) "Class Name" = Ok class_name →
  eq_str class_name name = true →
  selected name (PDict kvs) = true
  ∧ stamp_card name crate (PDict kvs) = PDict (dict_set "Crate" number kvs).
Proof.
  intros Hnumber Hcn Hsel. unfold stamp_card, selected.
  by rewrite Hcn, Hsel, Hnumber.
Qed.

Lemma stamp_card_other (name : string) (crate card class_name : pyval) :
  getitem card "Class Name" = Ok class_name →
  eq_str class_name name = false →
  selected name card ≠ true ∧ stamp_card name crate card = card.
Proof.
  intros Hcn Hsel. unfold stamp_card, selected. by rewrite Hcn, Hsel.
Qed.

(** The inner loop stamps the selected cards where they are and collects
    them in card order. *)
Lemma cards_loop_ok (name : string) (crate number : pyval)
    (cards object_info_list : list pyval) :
  getitem crate "CrateNumber" = Ok number →
  Forall (λ card, card_ok card = true) cards →
  cards_loop name crate cards object_info_list =
    (stamp_card name crate <$> cards,
     Ok (object_info_list ++
           (stamp_card name crate
              <$> filter (λ card, selected name card = true) cards))).
Proof.
  intros Hnumber Hcards. revert object_info_list.
  induction Hcards as [| card cards Hcard _ IH]; intros acc.
  - simpl. by rewrite app_nil_r.
  - destruct (card_ok_inv _ Hcard) as (kvs & cn & -> & Hcn).
    cbn [cards_loop]. rewrite Hcn. rewrite fmap_cons.
    destruct (eq_str cn name) eqn:Hsel.
    + destruct (stamp_card_selected _ _ _ _ _ Hnumber Hcn Hsel) as [Hyes Hstamp].
      rewrite Hnumber. cbn [bind setitem]. rewrite IH.
      rewrite filter_cons_True by done.
      rewrite fmap_cons, Hstamp. by rewrite <- app_assoc.
    + destruct (stamp_card_other _ crate _ _ Hcn Hsel) as [Hno Hstamp].
      rewrite IH. rewrite filter_cons_False by done. by rewrite Hstamp.
Qed.

Lemma crate_ok_inv (crate : pyval) :
  crate_ok crate = true →
  ∃ number cards,
    getitem crate "CrateNumber" = Ok number
    ∧ getitem crate "Cards" = Ok (PList cards)
    ∧ Forall (λ card, card_ok card = true) cards.
Proof.
  unfold crate_ok.
  destruct (getitem crate "CrateNumber") as [number |]; [| discriminate].
  destruct (getitem crate "Cards") as [cards |]; [| discriminate].
  destruct cards as [| | | | | | cards |]; try discriminate.
  intros Hall. exists number, cards. repeat split.
  apply Forall_forall. intros card Hin. rewrite forallb_forall in Hall.
  apply Hall. by apply list_elem_of_In.
Qed.

Lemma crates_loop_ok (name : string) (crates object_info_list : list pyval) :
  Forall (λ crate, crate_ok crate = true) crates →
  crates_loop name crates object_info_list =
    (stamp_crate name <$> crates,
     Ok (object_info_list ++ (crates ≫= stamped_selection name))).
Proof.
  intros Hcrates. revert object_info_list.
  induction Hcrates as [| crate crates Hcrate _ IH]; intros acc.
  - simpl. by rewrite app_nil_r.
  - destruct (crate_ok_inv _ Hcrate) as (number & cards & Hnumber & Hcards & Hok).
    cbn [crates_loop]. rewrite Hcards. cbn [bind py_iter].
    rewrite (cards_loop_ok _ _ number) by done.
    rewrite IH. rewrite fmap_cons, bind_cons.
    unfold stamp_crate at 2, stamped_selection at 2, cards_of.
    rewrite Hcards. cbn [store_list]. by rewrite <- app_assoc.
Qed.

(** A matching card of the only crate: after the call the card inside the
    header has the entry [Crate], which it did not have before. *)
Lemma header_is_stamped_in_place :
  get_object_info one_card_header "ORSIS3302Model" =
    (PDict [("ObjectInfo",
             PDict [("Crates",
                     PList [PDict [("CrateNumber", PInt 2);
                                   ("Cards",
                                    PList [PDict [("Class Name", PStr "ORSIS3302Model");
                                                  ("Card", PInt 3);
                                                  ("Crate", PInt 2)]])]]);
                    ("DataChain",
                     PList [PDict [("Document", PStr "legend.Orca")];
                            PDict [("Run Control", PDict [("RunNumber", PInt 117)])];
                            PDict [("Run Control", PDict [("RunNumber", PInt 118)])]])])],
     Ok [PDict [("Class Name", PStr "ORSIS3302Model");
                ("Card", PInt 3);
                ("Crate", PInt 2)]])
  ∧ (get_object_info one_card_header "ORSIS3302Model").1 ≠ one_card_header.
Proof.
  split; [vm_compute; reflexivity |].
  vm_compute. intros Heq. discriminate Heq.
Qed.

(** C8, as the module has it.  For a header whose crate and card tree has
    the expected shape, [get_object_info] returns the cards of the requested
    class in crate-then-card order, each with the number of its crate under
    [Crate]; the stamp is written into the cards of the header themselves,
    so the header after the call is the header before it with exactly these
    cards stamped; when no card is selected the header is unchanged. *)
Theorem object_info_stamps_header (header_dict : pyval) (name : string) :
  crates_ok header_dict = true →
  ∃ oi crates,
    getitem header_dict "ObjectInfo" = Ok oi
    ∧ getitem oi "Crates" = Ok (PList crates)
    ∧ get_object_info header_dict name =
        (store header_dict "ObjectInfo"
           (store oi "Crates" (PList (stamp_crate name <$> crates))),
         Ok (crates ≫= stamped_selection name))
    ∧ (∀ crate card, crate ∈ crates → card ∈ cards_of crate →
                     selected name card = true →
       ∃ number, getitem crate "CrateNumber" = Ok number
                 ∧ getitem (stamp_card name crate card) "Crate" = Ok number)
    ∧ ((∀ crate card, crate ∈ crates → card ∈ cards_of crate →
                      selected name card = false) →
       (get_object_info header_dict name).1 = header_dict).
Proof.
  unfold crates_ok. intros Hok.
  destruct (getitem header_dict "ObjectInfo") as [oi |] eqn:Hoi; [| discriminate].
  cbn [bind] in Hok.
  destruct (getitem oi "Crates") as [cs |] eqn:Hcs; [| discriminate].
  destruct cs as [| | | | | | crates |]; try discriminate.
  assert (Hcrates : Forall (λ crate, crate_ok crate = true) crates).
  { apply Forall_forall. intros crate Hin. rewrite forallb_forall in Hok.
    apply Hok. by apply list_elem_of_In. }
  assert (Hrun : get_object_info header_dict name =
                   (store header_dict "ObjectInfo"
                      (store oi "Crates" (PList (stamp_crate name <$> crates))),
                    Ok (crates ≫= stamped_selection name))).
  { unfold get_object_info. rewrite Hoi. cbn [bind]. rewrite Hcs. cbn [bind py_iter].
    rewrite crates_loop_ok by done. done. }
  exists oi, crates. split; [done |]. split; [done |]. split; [done |]. split.
  { intros crate card Hcrate Hcard Hsel. rewrite Forall_forall in Hcrates.
    destruct (crate_ok_inv _ (Hcrates _ Hcrate)) as (number & cards & Hnumber & _).
    exists number. split; [done |].
    unfold selected in Hsel.
    destruct (getitem card "Class Name") as [cn |] eqn:Hcn; [| discriminate].
    destruct (getitem_dict _ _ _ Hcn) as (kvs & -> & _).
    destruct (stamp_card_selected _ _ _ _ _ Hnumber Hcn Hsel) as [_ ->].
    apply getitem_store_eq. }
  intros Hnone. rewrite Hrun. cbn [fst].
  assert (Hsame : stamp_crate name <$> crates = crates).
  { rewrite <- (list_fmap_id crates) at 2. apply list_fmap_ext.
    intros i crate Hcrate%list_elem_of_lookup_2. simpl.
    pose proof Hcrate as Hcrate'. rewrite Forall_forall in Hcrates.
    destruct (crate_ok_inv _ (Hcrates _ Hcrate)) as (number & cards & _ & Hcards & _).
    unfold stamp_crate.
    assert (Hid : stamp_card name crate <$> cards_of crate = cards_of crate).
    { rewrite <- (list_fmap_id (cards_of crate)) at 2. apply list_fmap_ext.
      intros j card Hcard%list_elem_of_lookup_2. simpl.
      unfold stamp_card. by rewrite (Hnone crate card). }
    rewrite Hid. apply store_same. unfold cards_of. by rewrite Hcards. }
  rewrite Hsame. rewrite (store_same oi) by done. by apply store_same.
Qed.

Lemma object_info_stamps_header_witness :
  ∃ oi crates,
    getitem one_card_header "ObjectInfo" = Ok oi
    ∧ getitem oi "Crates" = Ok (PList crates)
    ∧ get_object_info one_card_header "ORSIS3302Model" =
        (store one_card_header "ObjectInfo"
           (store oi "Crates" (PList (stamp_crate "ORSIS3302Model" <$> crates))),
         Ok (crates ≫= stamped_selection "ORSIS3302Model"))
    ∧ (∀ crate card, crate ∈ crates → card ∈ cards_of crate →
                     selected "ORSIS3302Model" card = true →
       ∃ number, getitem crate "CrateNumber" = Ok number
                 ∧ getitem (stamp_card "ORSIS3302Model" crate card) "Crate" = Ok number)
    ∧ ((∀ crate card, crate ∈ crates → card ∈ cards_of crate →
                      selected "ORSIS3302Model" card = false) →
       (get_object_info one_card_header "ORSIS3302Model").1 = one_card_header).
Proof.
  apply (object_info_stamps_header one_card_header "ORSIS3302Model"). reflexivity.
Defined.

(** * Further properties *)

(** ** [from_bytes] *)

Lemma byte_val_inj (a b : byte) : byte_val a = byte_val b → a = b.
Proof.
  unfold byte_val. intros Heq%N2Z.inj.
  pose proof (Byte.of_to_N a) as Ha. pose proof (Byte.of_to_N b) as Hb.
  rewrite Heq in Ha. congruence.
Qed.

(** The loop started at a later offset is the loop from offset 0, shifted. *)
Lemma from_bytes_loop_shift (data : list byte) (offset num : Z) :
  0 ≤ offset →
  from_bytes_loop data offset num =
    num + 2 ^ (8 * offset) * from_bytes_loop data 0 0.
Proof.
  revert offset num. induction data as [| b data IH]; intros offset num Hoff.
  - simpl. lia.
  - cbn [from_bytes_loop]. rewrite (IH (offset + 1)) by lia.
    rewrite (IH (0 + 1)) by lia.
    rewrite !Z.shiftl_mul_pow2 by lia.
    replace (8 * (offset + 1)) with (8 * offset + 8) by lia.
    rewrite Z.pow_add_r by lia.
    change (0 * 8) with 0. change (8 * (0 + 1)) with 8.
    replace (offset * 8) with (8 * offset) by lia.
    change (2 ^ 0) with 1. lia.
Qed.

Lemma from_bytes_cons (b : byte) (data : list byte) :
  from_bytes (b :: data) false = byte_val b + 256 * from_bytes data false.
Proof.
  unfold from_bytes. cbn [from_bytes_loop].
  rewrite from_bytes_loop_shift by lia.
  rewrite Z.shiftl_mul_pow2 by lia. change (2 ^ (8 * (0 + 1))) with 256.
  change (2 ^ (0 * 8)) with 1. lia.
Qed.

Lemma from_bytes_little_range (data : list byte) :
  0 ≤ from_bytes data false < 2 ^ (8 * Z.of_nat (length data)).
Proof.
  induction data as [| b data IH].
  - unfold from_bytes. simpl. lia.
  - rewrite from_bytes_cons. pose proof (byte_val_range b) as Hb.
    replace (8 * Z.of_nat (length (b :: data)))
      with (8 + 8 * Z.of_nat (length data)) by (simpl length; lia).
    rewrite Z.pow_add_r by lia. change (2 ^ 8) with 256. lia.
Qed.

Lemma from_bytes_little_app (lo hi : list byte) :
  from_bytes (lo ++ hi) false =
    from_bytes lo false + 2 ^ (8 * Z.of_nat (length lo)) * from_bytes hi false.
Proof.
  induction lo as [| b lo IH].
  - simpl. unfold from_bytes at 2. simpl. lia.
  - rewrite <- app_comm_cons, !from_bytes_cons, IH.
    replace (8 * Z.of_nat (length (b :: lo)))
      with (8 + 8 * Z.of_nat (length lo)) by (simpl length; lia).
    rewrite Z.pow_add_r by lia. change (2 ^ 8) with 256. lia.
Qed.

Lemma from_bytes_little_inj (d1 d2 : list byte) :
  length d1 = length d2 → from_bytes d1 false = from_bytes d2 false → d1 = d2.
Proof.
  revert d2. induction d1 as [| a d1 IH]; intros [| b d2] Hlen Heq;
    try discriminate; [done |].
  rewrite !from_bytes_cons in Heq.
  pose proof (byte_val_range a). pose proof (byte_val_range b).
  assert (byte_val a = byte_val b ∧ from_bytes d1 false = from_bytes d2 false)
    as [Hab Hrest] by lia.
  apply byte_val_inj in Hab. subst b. f_equal. apply IH; [| done].
  simpl in Hlen. lia.
Qed.

Lemma from_bytes_big_rev (data : list byte) :
  from_bytes data true = from_bytes (rev data) false.
Proof. reflexivity. Qed.

(** X1. Whatever the flag, [from_bytes] of [n] bytes is a natural number
    below [2 ^ (8 * n)]: nothing is lost and no sign appears, for any
    number of bytes, zero included. *)
Theorem from_bytes_range (data : list byte) (big_endian : bool) :
  0 ≤ from_bytes data big_endian < 2 ^ (8 * Z.of_nat (length data)).
Proof.
  destruct big_endian.
  - rewrite from_bytes_big_rev, <- length_rev. apply from_bytes_little_range.
  - apply from_bytes_little_range.
Qed.

(** X2. [from_bytes] loses no information: two byte strings of the same
    length that decode to the same number under the same flag are equal. *)
Theorem from_bytes_inj (d1 d2 : list byte) (big_endian : bool) :
  length d1 = length d2 →
  from_bytes d1 big_endian = from_bytes d2 big_endian →
  d1 = d2.
Proof.
  intros Hlen Heq. destruct big_endian.
  - rewrite !from_bytes_big_rev in Heq.
    apply from_bytes_little_inj in Heq; [| by rewrite !length_rev].
    rewrite <- (rev_involutive d1), <- (rev_involutive d2). by f_equal.
  - by apply from_bytes_little_inj.
Qed.

Lemma from_bytes_inj_witness : [x01; x02] = [x01; x02].
Proof.
  apply (from_bytes_inj [x01; x02] [x01; x02] true); reflexivity.
Defined.

(** X3. The value of a concatenation: in little-endian order the first
    part holds the low digits, in big-endian order the last part does, and
    the other part is shifted by eight bits per byte of it. *)
Theorem from_bytes_app (first last : list byte) :
  from_bytes (first ++ last) false =
    from_bytes first false
    + 2 ^ (8 * Z.of_nat (length first)) * from_bytes last false
  ∧ from_bytes (first ++ last) true =
      from_bytes last true
      + 2 ^ (8 * Z.of_nat (length last)) * from_bytes first true.
Proof.
  split; [apply from_bytes_little_app |].
  rewrite !from_bytes_big_rev, rev_app_distr, from_bytes_little_app.
  by rewrite length_rev.
Qed.

(** ** [parse_header] *)

(** What the function does with any file, however short: the two words are
    decoded from the bytes that are there, and the parser is given the bytes
    that follow the first eight, at most as many as the second word says. *)
Lemma parse_header_blob (host : byteorder) (plist : list byte → result pyval)
    (xmlfile : list byte) :
  parse_header host plist xmlfile =
    (let big_endian := match host with little => false | big => true end in
     let i := from_bytes (take 4 xmlfile) big_endian in
     let j := from_bytes (take 4 (drop 4 xmlfile)) big_endian in
     do header_dict <- plist (take (Z.to_nat j) (drop 8 xmlfile));
     Ok (i, j, header_dict)).
Proof.
  unfold parse_header. rewrite read_nonneg by lia.
  change (Z.to_nat 8) with 8%nat. cbn [remaining kind bind].
  rewrite take_take. change (4 `min` 8)%nat with 4%nat.
  rewrite (take_drop_commute xmlfile 4 4). change (4 + 4)%nat with 8%nat.
  rewrite read_nonneg by apply from_bytes_range.
  reflexivity.
Qed.

(** X4. [parse_header] checks no length.  For every file, shorter than the
    preamble or than the announced header included, it decodes the two
    words from the bytes at hand and parses the bytes after the eighth, at
    most [j] of them; it raises only what the property-list parser raises,
    and on the empty file both words are 0 and the parser gets the empty
    string. *)
Theorem parse_header_trusts_lengths (host : byteorder)
    (plist : list byte → result pyval) (xmlfile : list byte) :
  let big_endian := match host with little => false | big => true end in
  let i := from_bytes (take 4 xmlfile) big_endian in
  let j := from_bytes (take 4 (drop 4 xmlfile)) big_endian in
  let blob := take (Z.to_nat j) (drop 8 xmlfile) in
  parse_header host plist xmlfile =
    (do header_dict <- plist blob; Ok (i, j, header_dict))
  ∧ (∀ e, parse_header host plist xmlfile = Raise e → plist blob = Raise e)
  ∧ length blob = (Z.to_nat j `min` (length xmlfile - 8))%nat
  ∧ parse_header host plist [] = (do header_dict <- plist []; Ok (0, 0, header_dict)).
Proof.
  intros big_endian i j blob. split; [apply parse_header_blob |].
  split; [| split].
  - intros e. rewrite parse_header_blob. cbn zeta. subst blob j i big_endian.
    destruct (plist _) as [hd | e']; simpl; [discriminate | by intros [= ->]].
  - subst blob. by rewrite length_take, length_drop.
  - rewrite parse_header_blob. destruct host; reflexivity.
Qed.

(** X5. A capture written on a host of the other byte order is read
    correctly once every 32-bit word is byte-swapped: on a big-endian host
    the swapped preamble and the swapped leading word give what the original
    bytes give on a little-endian host. *)
Theorem byte_swap_compensates_host (plist : list byte → result pyval)
    (k : stream_kind) (b0 b1 b2 b3 b4 b5 b6 b7 : byte) (rest : list byte) :
  parse_header big plist (b3 :: b2 :: b1 :: b0 :: b7 :: b6 :: b5 :: b4 :: rest)
    = parse_header little plist (b0 :: b1 :: b2 :: b3 :: b4 :: b5 :: b6 :: b7 :: rest)
  ∧ get_next_packet big (Stream k (b3 :: b2 :: b1 :: b0 :: rest))
    = get_next_packet little (Stream k (b0 :: b1 :: b2 :: b3 :: rest)).
Proof.
  split.
  - rewrite !parse_header_blob. cbn [take drop]. rewrite !take_0, !drop_0.
    rewrite (from_bytes_word big b3 b2 b1 b0), (from_bytes_word big b7 b6 b5 b4).
    rewrite (from_bytes_word little b0 b1 b2 b3), (from_bytes_word little b4 b5 b6 b7).
    reflexivity.
  - rewrite !get_next_packet_word. reflexivity.
Qed.

(** ** More on the packet reader *)

Lemma get_next_packet_short (host : byteorder) (k : stream_kind) (bs : list byte) :
  (length bs < 4)%nat →
  ∃ e, get_next_packet host (Stream k bs) = (Raise e, Stream k []).
Proof.
  intros Hlen.
  destruct bs as [| a [| b [| c [| d bs]]]]; simpl in Hlen; try lia; eexists; reflexivity.
Qed.

(** X6. A packet that is returned is exactly what was consumed: the bytes
    that were left before the call are the four bytes of the leading word,
    then the payload, then the bytes left after the call; the identifier is
    the one of that leading word. *)
Theorem packet_is_what_was_consumed (host : byteorder) (f_in f_out : stream)
    (event_data : list byte) (data_id : Z) :
  get_next_packet host f_in = (Ok (event_data, data_id), f_out) →
  ∃ b0 b1 b2 b3,
    remaining f_in = b0 :: b1 :: b2 :: b3 :: event_data ++ remaining f_out
    ∧ data_id = data_id_of (uint32_native host b0 b1 b2 b3)
    ∧ kind f_out = kind f_in.
Proof.
  destruct f_in as [k bs]. intros Hrun.
  destruct (decide (length bs < 4)%nat) as [Hshort | Hlong].
  { destruct (get_next_packet_short host k bs Hshort) as [e He]. congruence. }
  destruct bs as [| b0 [| b1 [| b2 [| b3 rest]]]]; simpl in Hlong; try lia.
  exists b0, b1, b2, b3. rewrite get_next_packet_word in Hrun. cbn zeta in Hrun.
  unfold read in Hrun. cbn [kind remaining] in Hrun |- *.
  case_decide as Hneg.
  - destruct k; [| case_decide]; injection Hrun as <- <- <- || discriminate Hrun;
      cbn [remaining kind]; by rewrite app_nil_r.
  - injection Hrun as <- <- <-. cbn [remaining kind]. by rewrite take_drop.
Qed.

Lemma packet_is_what_was_consumed_witness :
  ∃ b0 b1 b2 b3,
    [x02; x00; x0c; x00; x0a; x0b; x0c; x0d; x0e] =
      b0 :: b1 :: b2 :: b3 :: [x0a; x0b; x0c; x0d] ++ [x0e]
    ∧ 3 = data_id_of (uint32_native little b0 b1 b2 b3)
    ∧ buffered_reader = buffered_reader.
Proof.
  apply (packet_is_what_was_consumed little
           (Stream buffered_reader [x02; x00; x0c; x00; x0a; x0b; x0c; x0d; x0e])
           (Stream buffered_reader [x0e]) [x0a; x0b; x0c; x0d] 3).
  reflexivity.
Defined.

(** X7. The identifier of a returned packet fits 14 bits, and when the
    leading word announces at least one word the payload has at most
    [n * 4 - 4] bytes, hence fewer than [2 ^ 20]. *)
Theorem packet_bounds (host : byteorder) (k : stream_kind)
    (b0 b1 b2 b3 : byte) (rest : list byte) (f_out : stream)
    (event_data : list byte) (data_id : Z) :
  get_next_packet host (Stream k (b0 :: b1 :: b2 :: b3 :: rest))
    = (Ok (event_data, data_id), f_out) →
  let n := record_length_of (uint32_native host b0 b1 b2 b3) in
  0 ≤ data_id < 2 ^ 14
  ∧ (1 ≤ n →
     Z.of_nat (length event_data) ≤ n * 4 - 4
     ∧ Z.of_nat (length event_data) < 2 ^ 20).
Proof.
  intros Hrun n.
  pose proof (uint32_native_range host b0 b1 b2 b3) as Hword.
  pose proof (record_length_of_range (uint32_native host b0 b1 b2 b3)) as Hn.
  fold n in Hn.
  rewrite get_next_packet_word in Hrun. cbn zeta in Hrun. fold n in Hrun.
  split.
  - assert (data_id = data_id_of (uint32_native host b0 b1 b2 b3)) as ->.
    { destruct (read _ _) as [[d |] f]; by inversion Hrun. }
    rewrite data_id_of_div. split.
    + apply Z.div_pos; lia.
    + apply Z.div_lt_upper_bound; lia.
  - intros Hpos. rewrite read_nonneg in Hrun by lia.
    injection Hrun as <- _ _. rewrite length_take. cbn [remaining]. lia.
Qed.

Lemma packet_bounds_witness :
  let n := record_length_of (uint32_native little x02 x00 x0c x00) in
  0 ≤ 3 < 2 ^ 14
  ∧ (1 ≤ n →
     Z.of_nat (length [x0a; x0b; x0c; x0d]) ≤ n * 4 - 4
     ∧ Z.of_nat (length [x0a; x0b; x0c; x0d]) < 2 ^ 20).
Proof.
  apply (packet_bounds little buffered_reader x02 x00 x0c x00
           [x0a; x0b; x0c; x0d; x0e] (Stream buffered_reader [x0e])).
  reflexivity.
Defined.

(** X8. The reader never rewinds and never changes the file object:
    whatever the outcome, the bytes left after the call are a suffix of the
    bytes left before it. *)
Theorem reader_moves_forward (host : byteorder) (f_in : stream) :
  remaining (get_next_packet host f_in).2 `suffix_of` remaining f_in
  ∧ kind (get_next_packet host f_in).2 = kind f_in.
Proof.
  destruct f_in as [k bs].
  destruct (decide (length bs < 4)%nat) as [Hshort | Hlong].
  { destruct (get_next_packet_short host k bs Hshort) as [e ->]. simpl.
    split; [apply suffix_nil | done]. }
  destruct bs as [| b0 [| b1 [| b2 [| b3 rest]]]]; simpl in Hlong; try lia.
  rewrite get_next_packet_word. cbn zeta. unfold read. cbn [kind remaining].
  assert (Hrest : rest `suffix_of` b0 :: b1 :: b2 :: b3 :: rest)
    by (by exists [b0; b1; b2; b3]).
  case_decide as Hneg.
  - destruct k; [| case_decide]; cbn [snd remaining kind];
      (split; [apply suffix_nil || done | done]).
  - cbn [snd remaining kind]. split; [| done].
    etrans; [apply suffix_drop | done].
Qed.

(** ** More on the run number *)

(** X9. The scan stops at the first entry that has the run-control key and
    never falls back to a later one: when the value under the key is a
    dictionary without [RunNumber] the call raises [KeyError], and when it
    is not a dictionary it raises [TypeError], whatever the entries after
    it hold. *)
Theorem run_number_no_fallback (header_dict oi : pyval)
    (pre post : list pyval) (d rc : pyval) :
  getitem header_dict "ObjectInfo" = Ok oi →
  getitem oi "DataChain" = Ok (PList (pre ++ d :: post)) →
  Forall (λ d', is_dict d' = true) pre →
  Forall (λ d', has_key "Run Control" d' = false) pre →
  getitem d "Run Control" = Ok rc →
  (has_key "RunNumber" rc = false → raises (get_run_number header_dict))
  ∧ (∀ kvs, rc = PDict kvs → "RunNumber" ∉ dict_keys kvs →
            get_run_number header_dict = Raise (KeyError "RunNumber"))
  ∧ (is_dict rc = false → get_run_number header_dict = Raise TypeError).
Proof.
  intros Hoi Hchain Hdict Hlack Hrc.
  assert (Hrun : get_run_number header_dict = getitem rc "RunNumber").
  { unfold get_run_number. rewrite Hoi. cbn [bind]. rewrite Hchain. cbn [bind py_iter].
    rewrite run_number_loop_skip by done. by apply run_number_loop_found. }
  rewrite Hrun. split; [| split].
  - destruct rc as [| | | | | | | kvs]; try done.
    cbn [has_key getitem]. intros Hno%bool_decide_eq_false_1.
    apply dict_get_None in Hno. by rewrite Hno.
  - intros kvs -> Hno. cbn [getitem]. apply dict_get_None in Hno. by rewrite Hno.
  - by destruct rc.
Qed.

Lemma run_number_no_fallback_witness :
  get_run_number
    (PDict [("ObjectInfo",
             PDict [("DataChain",
                     PList [PDict [("Document", PStr "legend.Orca")];
                            PDict [("Run Control", PDict [("quickStart", PBool false)])];
                            PDict [("Run Control", PDict [("RunNumber", PInt 118)])]])])])
  = Raise (KeyError "RunNumber").
Proof.
  pose (oi := PDict [("DataChain",
                      PList [PDict [("Document", PStr "legend.Orca")];
                             PDict [("Run Control", PDict [("quickStart", PBool false)])];
                             PDict [("Run Control", PDict [("RunNumber", PInt 118)])]])]).
  destruct (run_number_no_fallback (PDict [("ObjectInfo", oi)]) oi
              [PDict [("Document", PStr "legend.Orca")]]
              [PDict [("Run Control", PDict [("RunNumber", PInt 118)])]]
              (PDict [("Run Control", PDict [("quickStart", PBool false)])])
              (PDict [("quickStart", PBool false)])) as (_ & Hkey & _).
  - reflexivity.
  - reflexivity.
  - repeat constructor.
  - repeat constructor.
  - reflexivity.
  - apply (Hkey [("quickStart", PBool false)]); [reflexivity |].
    by apply dict_get_None.
Defined.

(** ** Headers without the top-level keys *)

(** X10. A header dictionary without [dataDescription] makes the three
    functions that walk the declaration tree raise [KeyError] for that key;
    one without [ObjectInfo] makes [get_run_number] and [get_object_info]
    raise [KeyError] for that key, and [get_object_info] leaves it as it
    is. *)
Theorem missing_top_level_key (kvs : list (string * pyval))
    (class_name super_name name : string) :
  ("dataDescription" ∉ dict_keys kvs →
     get_data_id (PDict kvs) class_name super_name = Raise (KeyError "dataDescription")
     ∧ flip_data_ids (PDict kvs) = Raise (KeyError "dataDescription")
     ∧ get_id_to_decoder_name_dict (PDict kvs) = Raise (KeyError "dataDescription"))
  ∧ ("ObjectInfo" ∉ dict_keys kvs →
       get_run_number (PDict kvs) = Raise (KeyError "ObjectInfo")
       ∧ get_object_info (PDict kvs) name = (PDict kvs, Raise (KeyError "ObjectInfo"))).
Proof.
  split; intros Hno%dict_get_None.
  - unfold get_data_id, flip_data_ids, get_id_to_decoder_name_dict. cbn [getitem].
    by rewrite Hno.
  - unfold get_run_number, get_object_info. cbn [getitem]. by rewrite Hno.
Qed.

Lemma missing_top_level_key_witness :
  get_run_number (PDict [("dataDescription", PDict [])])
    = Raise (KeyError "ObjectInfo")
  ∧ get_object_info (PDict [("dataDescription", PDict [])]) "ORSIS3302Model"
    = (PDict [("dataDescription", PDict [])], Raise (KeyError "ObjectInfo")).
Proof.
  destruct (missing_top_level_key [("dataDescription", PDict [])]
              "ORSIS3302Model" "Energy" "ORSIS3302Model") as [_ Hinfo].
  apply Hinfo. by apply dict_get_None.
Defined.

(** ** What a returned decoder table implies *)

Lemma id2dn_super_inv (dd : pyval) (class_key : string) (super_keys : list string)
    (tbl tbl' : gmap Z pyval) :
  for_each (id2dn_super dd class_key) super_keys tbl = Ok tbl' →
  ∃ ps, Forall2 (entry_reads dd) (pair class_key <$> super_keys) ps
        ∧ tbl' = foldl assign tbl ps.
Proof.
  revert tbl. induction super_keys as [| sk sks IH]; intros tbl Hrun.
  - injection Hrun as <-. exists []. split; [constructor | done].
  - cbn [for_each] in Hrun. unfold id2dn_super at 1 in Hrun.
    destruct (leaf_field dd class_key sk "dataId") as [raw |] eqn:Hraw; [| done].
    cbn [bind] in Hrun.
    destruct (rshift18 raw) as [id |] eqn:Hid; [| done]. cbn [bind] in Hrun.
    destruct (leaf_field dd class_key sk "decoder") as [name |] eqn:Hname; [| done].
    cbn [bind] in Hrun. destruct (IH _ Hrun) as (ps & Hps & ->).
    exists ((id, name) :: ps). split; [| done].
    rewrite fmap_cons. constructor; [| done].
    split; [| done]. unfold declared_id. cbn [fst snd]. by rewrite Hraw.
Qed.

Lemma id2dn_class_inv (dd : pyval) (class_keys : list string) (tbl tbl' : gmap Z pyval) :
  for_each (id2dn_class dd) class_keys tbl = Ok tbl' →
  (∀ class_key, class_key ∈ class_keys →
     ∃ leaves, getitem dd class_key = Ok (PDict leaves))
  ∧ ∃ ps,
      Forall2 (entry_reads dd)
        (class_keys ≫= λ class_key, pair class_key <$> super_keys_of dd class_key) ps
      ∧ tbl' = foldl assign tbl ps.
Proof.
  revert tbl. induction class_keys as [| ck cks IH]; intros tbl Hrun.
  - injection Hrun as <-. split; [by intros ? ?%elem_of_nil |].
    exists []. split; [constructor | done].
  - cbn [for_each] in Hrun. unfold id2dn_class at 1 in Hrun.
    destruct (getitem dd ck) as [c |] eqn:Hc; [| done]. cbn [bind] in Hrun.
    destruct c as [| | | | | | | leaves]; try done. cbn [keys bind] in Hrun.
    destruct (for_each (id2dn_super dd ck) (dict_keys leaves) tbl) as [tbl1 |] eqn:Hinner;
      [| done].
    cbn [bind] in Hrun.
    destruct (id2dn_super_inv _ _ _ _ _ Hinner) as (ps1 & Hps1 & ->).
    destruct (IH _ Hrun) as (Hclasses & ps2 & Hps2 & ->).
    split.
    + intros ck' [-> | Hin]%elem_of_cons; [eauto | by apply Hclasses].
    + exists (ps1 ++ ps2). rewrite bind_cons, foldl_app. split; [| done].
      apply Forall2_app; [| done].
      unfold super_keys_of. rewrite Hc. done.
Qed.

Lemma decoder_table_inv (header_dict : pyval) (tbl : gmap Z pyval) :
  get_id_to_decoder_name_dict header_dict = Ok tbl →
  ∃ classes ps,
    getitem header_dict "dataDescription" = Ok (PDict classes)
    ∧ (∀ class_key, class_key ∈ dict_keys classes →
         ∃ leaves, getitem (PDict classes) class_key = Ok (PDict leaves))
    ∧ Forall2 (entry_reads (PDict classes)) (walk (PDict classes)) ps
    ∧ tbl = foldl assign ∅ ps.
Proof.
  unfold get_id_to_decoder_name_dict. intros Hrun.
  destruct (getitem header_dict "dataDescription") as [dd |]; [| done].
  cbn [bind] in Hrun. destruct dd as [| | | | | | | classes]; try done.
  cbn [keys bind] in Hrun.
  destruct (id2dn_class_inv _ _ _ _ Hrun) as (Hclasses & ps & Hps & ->).
  exists classes, ps. done.
Qed.

(** The keys of a table built from what the walk reads. *)
Lemma assignments_keys (dd : pyval) (ps : list (Z * pyval)) (id : Z) :
  Forall2 (entry_reads dd) (walk dd) ps →
  is_Some (foldl assign ∅ ps !! id) ↔
  ∃ class_key super_key, declared_id dd class_key super_key = Ok id.
Proof.
  intros Hps. split.
  - intros [name [Hin | Hempty]%assign_all_Some]; [| by rewrite lookup_empty in Hempty].
    destruct (Forall2_elem_of_r _ _ _ _ Hps Hin) as ([ck sk] & _ & Hid & _). eauto.
  - intros (ck & sk & Hid). pose proof (declared_id_walk _ _ _ _ Hid) as Hin.
    destruct (Forall2_elem_of_l _ _ _ _ Hps Hin) as ([id' name] & Hp & Hid' & _).
    simpl in Hid'. rewrite Hid in Hid'. injection Hid' as <-.
    apply (assign_all_is_Some ps ∅ (id, name) Hp).
Qed.

(** X11. A table is returned only when every leaf entry of the walk has a
    decoded identifier and a decoder name: no leaf is skipped, each one has
    its identifier among the keys, and the keys are exactly the decoded
    identifiers; one leaf without them makes the whole call raise. *)
Theorem decoder_table_needs_every_leaf (header_dict : pyval) :
  (∀ tbl : gmap Z pyval,
     get_id_to_decoder_name_dict header_dict = Ok tbl →
     ∃ dd,
       getitem header_dict "dataDescription" = Ok dd
       ∧ (∀ class_key super_key,
            (class_key, super_key) ∈ walk dd →
            ∃ id decoder_name,
              declares header_dict class_key super_key id decoder_name
              ∧ is_Some (tbl !! id))
       ∧ (∀ id, id ∈ dom tbl ↔
                ∃ class_key super_key,
                  declares_id header_dict class_key super_key id))
  ∧ (∀ dd class_key super_key,
       getitem header_dict "dataDescription" = Ok dd →
       (class_key, super_key) ∈ walk dd →
       (∀ id decoder_name,
          ¬ declares header_dict class_key super_key id decoder_name) →
       raises (get_id_to_decoder_name_dict header_dict)).
Proof.
  assert (Hinv : ∀ tbl : gmap Z pyval,
             get_id_to_decoder_name_dict header_dict = Ok tbl →
             ∃ dd,
               getitem header_dict "dataDescription" = Ok dd
               ∧ (∀ class_key super_key,
                    (class_key, super_key) ∈ walk dd →
                    ∃ id decoder_name,
                      declares header_dict class_key super_key id decoder_name
                      ∧ is_Some (tbl !! id))
               ∧ (∀ id, id ∈ dom tbl ↔
                        ∃ class_key super_key,
                          declares_id header_dict class_key super_key id)).
  { intros tbl (classes & ps & Hdd & _ & Hps & ->)%decoder_table_inv.
    exists (PDict classes). split; [done |]. split.
    - intros ck sk Hin.
      destruct (Forall2_elem_of_l _ _ _ _ Hps Hin) as ([id name] & Hp & Hid & Hname).
      exists id, name. split; [by exists (PDict classes) |].
      apply (assign_all_is_Some ps ∅ (id, name) Hp).
    - intros id. rewrite elem_of_dom, (assignments_keys _ _ _ Hps). split.
      + intros (ck & sk & Hid). exists ck, sk, (PDict classes). done.
      + intros (ck & sk & dd & Hdd' & Hid). rewrite Hdd in Hdd'.
        injection Hdd' as <-. eauto. }
  split; [done |].
  intros dd ck sk Hdd Hin Hnone.
  destruct (get_id_to_decoder_name_dict header_dict) as [tbl |] eqn:Hrun; [| done].
  destruct (Hinv _ eq_refl) as (dd' & Hdd' & Hall & _).
  rewrite Hdd in Hdd'. injection Hdd' as <-.
  destruct (Hall _ _ Hin) as (id & name & Hdecl & _). by destruct (Hnone id name).
Qed.

Lemma decoder_table_needs_every_leaf_witness :
  ∃ dd,
    getitem single_header "dataDescription" = Ok dd
    ∧ (∀ class_key super_key,
         (class_key, super_key) ∈ walk dd →
         ∃ id decoder_name,
           declares single_header class_key super_key id decoder_name
           ∧ is_Some (({[1 := PStr "ORSIS3302DecoderForEnergy"]} : gmap Z pyval) !! id))
    ∧ (∀ id, id ∈ dom ({[1 := PStr "ORSIS3302DecoderForEnergy"]} : gmap Z pyval) ↔
             ∃ class_key super_key,
               declares_id single_header class_key super_key id).
Proof.
  destruct (decoder_table_needs_every_leaf single_header) as [Hok _].
  apply Hok. vm_compute. reflexivity.
Defined.

(** ** How the derived tables fit together *)

Lemma get_data_id_declares (header_dict : pyval) (class_name super_name : string)
    (id : Z) :
  get_data_id header_dict class_name super_name = Ok id ↔
  declares_id header_dict class_name super_name id.
Proof.
  unfold get_data_id, declares_id, declared_id, leaf_field. split.
  - destruct (getitem header_dict "dataDescription") as [dd |]; [| done].
    cbn [bind]. intros Hrun. exists dd. split; [done |].
    destruct (getitem dd class_name) as [c |]; [| done]. cbn [bind] in Hrun |- *.
    destruct (getitem c super_name) as [l |]; [| done]. done.
  - intros (dd & -> & Hid). cbn [bind].
    destruct (getitem dd class_name) as [c |]; [| done]. cbn [bind] in Hid |- *.
    destruct (getitem c super_name) as [l |]; [| done]. done.
Qed.

Lemma walk_intro (classes leaves : list (string * pyval)) (class_key super_key : string) :
  getitem (PDict classes) class_key = Ok (PDict leaves) →
  super_key ∈ dict_keys leaves →
  (class_key, super_key) ∈ walk (PDict classes).
Proof.
  intros Hc Hsk. unfold walk. cbn [keys]. apply list_elem_of_bind.
  exists class_key. split.
  - unfold super_keys_of. rewrite Hc. cbn [bind keys]. by apply list_elem_of_fmap_2.
  - apply getitem_dict in Hc as (kvs & [= <-] & Hget).
    apply dict_get_is_Some. eauto.
Qed.

(** The index of a header all of whose classes are dictionaries of leaves
    with an identifier. *)
Lemma flip_data_ids_run (header_dict : pyval) (classes : list (string * pyval)) :
  getitem header_dict "dataDescription" = Ok (PDict classes) →
  (∀ class_key, class_key ∈ dict_keys classes →
     ∃ leaves,
       getitem (PDict classes) class_key = Ok (PDict leaves)
       ∧ ∀ super_key, super_key ∈ dict_keys leaves →
           ∃ id, declared_id (PDict classes) class_key super_key = Ok id) →
  ∃ st, flip_data_ids header_dict = Ok st
        ∧ flip_inv (PDict classes) (dict_keys classes) st.
Proof.
  intros Hdd Hok.
  destruct (flip_class_loop classes (dict_keys classes) [] (FlipState ∅ []) Hok)
    as (st & Hrun & Hinv).
  { split.
    - intros id ck a Hlook. cbn [flipped] in Hlook. by rewrite lookup_empty in Hlook.
    - intros ck sk id Hin. by apply elem_of_nil in Hin. }
  exists st. split; [| done]. unfold flip_data_ids. rewrite Hdd. done.
Qed.

Lemma class_index_keys (classes : list (string * pyval)) (st : flip_state) (id : Z) :
  flip_inv (PDict classes) (dict_keys classes) st →
  is_Some (flipped_at st id) ↔
  ∃ class_key super_key, declared_id (PDict classes) class_key super_key = Ok id.
Proof.
  intros [Hentry Hcover]. unfold flipped_at. split.
  - destruct (flipped st !! id) as [[ck a] |] eqn:Hlook; [| by intros [? ?]].
    intros _. destruct (Hentry _ _ _ Hlook) as (_ & _ & sk & Hsk). eauto.
  - intros (ck & sk & Hid).
    pose proof (declared_id_walk _ _ _ _ Hid) as Hin.
    apply walk_inv in Hin as [Hck _].
    destruct (Hcover _ _ _ Hck Hid) as [[ck' a] Hlook].
    destruct (Hentry _ _ _ Hlook) as (Hlist & _).
    rewrite Hlook, Hlist. eauto.
Qed.

(** X12. The identifier that [get_data_id] gives for a class and an
    instance is a key of the decoder table of the same header, and the
    value there is the decoder name of a leaf entry with that identifier. *)
Theorem data_id_is_table_key (header_dict : pyval) (class_name super_name : string)
    (id : Z) (tbl : gmap Z pyval) :
  get_data_id header_dict class_name super_name = Ok id →
  get_id_to_decoder_name_dict header_dict = Ok tbl →
  ∃ decoder_name,
    tbl !! id = Some decoder_name
    ∧ ∃ class_key super_key,
        declares header_dict class_key super_key id decoder_name.
Proof.
  intros (dd & Hdd & Hid)%get_data_id_declares
         (classes & ps & Hdd' & _ & Hps & ->)%decoder_table_inv.
  rewrite Hdd in Hdd'. injection Hdd' as ->.
  destruct (proj2 (assignments_keys _ _ id Hps)) as [name Hname]; [eauto |].
  exists name. split; [done |].
  apply assign_all_Some in Hname as [Hin | Hempty]; [| by rewrite lookup_empty in Hempty].
  destruct (Forall2_elem_of_r _ _ _ _ Hps Hin) as ([ck sk] & _ & Hid' & Hname').
  exists ck, sk, (PDict classes). done.
Qed.

Lemma data_id_is_table_key_witness :
  ∃ decoder_name,
    ({[1 := PStr "ORSIS3302DecoderForEnergy"]} : gmap Z pyval) !! 1 = Some decoder_name
    ∧ ∃ class_key super_key,
        declares colliding_header class_key super_key 1 decoder_name.
Proof.
  apply (data_id_is_table_key colliding_header "ORGretina4MModel" "Gretina4M").
  - reflexivity.
  - vm_compute. reflexivity.
Defined.

(** X13. Whenever the decoder table of a header can be derived, its class
    index can be derived too, and the two have the same identifiers. *)
Theorem index_and_table_agree (header_dict : pyval) (tbl : gmap Z pyval) :
  get_id_to_decoder_name_dict header_dict = Ok tbl →
  ∃ st, flip_data_ids header_dict = Ok st
        ∧ ∀ id, is_Some (flipped_at st id) ↔ id ∈ dom tbl.
Proof.
  intros (classes & ps & Hdd & Hclasses & Hps & ->)%decoder_table_inv.
  destruct (flip_data_ids_run header_dict classes Hdd) as (st & Hrun & Hinv).
  { intros ck Hck. destruct (Hclasses _ Hck) as (leaves & Hc).
    exists leaves. split; [done |]. intros sk Hsk.
    pose proof (walk_intro _ _ _ _ Hc Hsk) as Hin.
    destruct (Forall2_elem_of_l _ _ _ _ Hps Hin) as ([id name] & _ & Hid & _). eauto. }
  exists st. split; [done |]. intros id.
  by rewrite elem_of_dom, (class_index_keys _ _ _ Hinv), (assignments_keys _ _ _ Hps).
Qed.

Lemma index_and_table_agree_witness :
  ∃ st, flip_data_ids two_instance_header = Ok st
        ∧ ∀ id, is_Some (flipped_at st id) ↔
                id ∈ dom ({[1 := PStr "ORSIS3302DecoderForEnergy";
                            2 := PStr "ORSIS3302DecoderForMca"]} : gmap Z pyval).
Proof.
  apply (index_and_table_agree two_instance_header). vm_compute. reflexivity.
Defined.

(** X14. From a class and an instance to the identifier and back: when no
    other class declares the identifier that [get_data_id] gives, the class
    index has that class at the identifier, with the complete list of its
    instance names, the given instance among them. *)
Theorem class_of_data_id (header_dict : pyval) (class_name super_name : string)
    (id : Z) :
  description_ok leaf_has_id header_dict = true →
  get_data_id header_dict class_name super_name = Ok id →
  (∀ class_key super_key,
     declares_id header_dict class_key super_key id → class_key = class_name) →
  ∃ st dd,
    getitem header_dict "dataDescription" = Ok dd
    ∧ flip_data_ids header_dict = Ok st
    ∧ flipped_at st id = Some (class_name, super_keys_of dd class_name)
    ∧ super_name ∈ super_keys_of dd class_name.
Proof.
  intros Hok (dd & Hdd & Hid)%get_data_id_declares Hunique.
  destruct (description_ok_classes _ _ Hok) as (classes & Hdd' & Hclasses).
  rewrite Hdd in Hdd'. injection Hdd' as ->.
  destruct (flip_data_ids_run header_dict classes Hdd) as (st & Hrun & Hinv).
  { intros ck Hck. destruct (Hclasses _ Hck) as (leaves & Hc & _).
    exists leaves. split; [done |]. intros sk Hsk.
    apply (walk_declared_id header_dict); [done | done |].
    by eapply walk_intro. }
  exists st, (PDict classes). split; [done |]. split; [done |].
  pose proof (declared_id_walk _ _ _ _ Hid) as Hin.
  apply walk_inv in Hin as [Hck Hsk]. split; [| done].
  destruct Hinv as [Hentry Hcover].
  destruct (Hcover _ _ _ Hck Hid) as [[ck' a] Hlook].
  destruct (Hentry _ _ _ Hlook) as (Hlist & _ & sk' & Hsk').
  assert (ck' = class_name) as -> by (apply (Hunique ck' sk'); by exists (PDict classes)).
  unfold flipped_at. by rewrite Hlook, Hlist.
Qed.

Lemma class_of_data_id_witness :
  ∃ st dd,
    getitem two_instance_header "dataDescription" = Ok dd
    ∧ flip_data_ids two_instance_header = Ok st
    ∧ flipped_at st 2 = Some ("ORSIS3302Model", super_keys_of dd "ORSIS3302Model")
    ∧ "Mca" ∈ super_keys_of dd "ORSIS3302Model".
Proof.
  apply (class_of_data_id two_instance_header "ORSIS3302Model" "Mca" 2).
  - reflexivity.
  - reflexivity.
  - intros ck sk (dd & Hdd & Hid). injection Hdd as <-.
    apply declared_id_walk, walk_inv in Hid as [Hck _].
    apply list_elem_of_singleton in Hck. done.
Defined.

(** ** More on object info *)

Lemma crates_ok_inv (header_dict : pyval) :
  crates_ok header_dict = true →
  ∃ oi crates,
    getitem header_dict "ObjectInfo" = Ok oi
    ∧ getitem oi "Crates" = Ok (PList crates)
    ∧ Forall (λ crate, crate_ok crate = true) crates.
Proof.
  unfold crates_ok. intros Hok.
  destruct (getitem header_dict "ObjectInfo") as [oi |] eqn:Hoi; [| discriminate].
  cbn [bind] in Hok.
  destruct (getitem oi "Crates") as [cs |] eqn:Hcs; [| discriminate].
  destruct cs as [| | | | | | crates |]; try discriminate.
  exists oi, crates. split; [done |]. split; [done |].
  apply Forall_forall. intros crate Hin. rewrite forallb_forall in Hok.
  apply Hok. by apply list_elem_of_In.
Qed.

Lemma get_object_info_ok (header_dict oi : pyval) (crates : list pyval) (name : string) :
  getitem header_dict "ObjectInfo" = Ok oi →
  getitem oi "Crates" = Ok (PList crates) →
  Forall (λ crate, crate_ok crate = true) crates →
  get_object_info header_dict name =
    (store header_dict "ObjectInfo"
       (store oi "Crates" (PList (stamp_crate name <$> crates))),
     Ok (crates ≫= stamped_selection name)).
Proof.
  intros Hoi Hcs Hcrates. unfold get_object_info.
  rewrite Hoi. cbn [bind]. rewrite Hcs. cbn [bind py_iter].
  by rewrite crates_loop_ok.
Qed.

(** Stamping a card leaves every entry but [Crate] as it is. *)
Lemma stamp_card_other_key (name k : string) (crate card : pyval) :
  k ≠ "Crate" → getitem (stamp_card name crate card) k = getitem card k.
Proof.
  intros Hk. unfold stamp_card.
  destruct (selected name card); [| done].
  destruct (getitem crate "CrateNumber") as [number |]; [| done].
  destruct card as [| | | | | | | kvs]; try done.
  cbn [store getitem]. by rewrite dict_get_set_ne.
Qed.

Lemma selected_stamp_card (name : string) (crate card : pyval) :
  selected name (stamp_card name crate card) = selected name card.
Proof. unfold selected. by rewrite stamp_card_other_key. Qed.

Lemma card_ok_stamp_card (name : string) (crate card : pyval) :
  card_ok (stamp_card name crate card) = card_ok card.
Proof. unfold card_ok. by rewrite stamp_card_other_key. Qed.

Lemma selected_inv (name : string) (card : pyval) :
  selected name card = true →
  ∃ kvs, card = PDict kvs ∧ getitem card "Class Name" = Ok (PStr name).
Proof.
  unfold selected.
  destruct (getitem card "Class Name") as [cn |] eqn:Hcn; [| discriminate].
  destruct (getitem_dict _ _ _ Hcn) as (kvs & -> & _).
  destruct cn as [s | | | | | | |]; try discriminate.
  cbn [eq_str]. intros ->%bool_decide_eq_true_1. eauto.
Qed.

(** A card that is selected carries the crate number after the stamp. *)
Lemma stamp_card_crate (name : string) (crate card number : pyval) :
  getitem crate "CrateNumber" = Ok number →
  selected name card = true →
  getitem (stamp_card name crate card) "Crate" = Ok number.
Proof.
  intros Hnumber Hsel. destruct (selected_inv _ _ Hsel) as (kvs & -> & _).
  unfold stamp_card. rewrite Hsel, Hnumber. apply getitem_store_eq.
Qed.

(** Stamping twice is stamping once. *)
Lemma stamp_card_twice (name : string) (crate crate' card number : pyval) :
  getitem crate "CrateNumber" = Ok number →
  getitem crate' "CrateNumber" = Ok number →
  stamp_card name crate' (stamp_card name crate card) = stamp_card name crate card.
Proof.
  intros Hnumber Hnumber'.
  destruct (selected name card) eqn:Hsel.
  - unfold stamp_card at 1. rewrite selected_stamp_card, Hsel, Hnumber'.
    apply store_same. by apply stamp_card_crate.
  - unfold stamp_card at 1. by rewrite selected_stamp_card, Hsel.
Qed.

Lemma filter_stamped (name : string) (crate : pyval) (cards : list pyval) :
  filter (λ card, selected name card = true) (stamp_card name crate <$> cards) =
    stamp_card name crate <$> filter (λ card, selected name card = true) cards.
Proof.
  induction cards as [| card cards IH]; [done |].
  rewrite fmap_cons. destruct (selected name card) eqn:Hsel.
  - rewrite !filter_cons_True by (by rewrite ?selected_stamp_card).
    by rewrite fmap_cons, IH.
  - rewrite !filter_cons_False by (rewrite ?selected_stamp_card; congruence).
    done.
Qed.

(** The crate after the stamp: same number, stamped cards, same shape. *)
Lemma stamp_crate_fields (name : string) (crate number : pyval) (cards : list pyval) :
  getitem crate "CrateNumber" = Ok number →
  getitem crate "Cards" = Ok (PList cards) →
  getitem (stamp_crate name crate) "CrateNumber" = Ok number
  ∧ getitem (stamp_crate name crate) "Cards"
    = Ok (PList (stamp_card name crate <$> cards))
  ∧ cards_of (stamp_crate name crate) = stamp_card name crate <$> cards.
Proof.
  intros Hnumber Hcards.
  destruct (getitem_dict _ _ _ Hcards) as (kvs & -> & _).
  assert (Hof : cards_of (PDict kvs) = cards) by (unfold cards_of; by rewrite Hcards).
  unfold stamp_crate. rewrite Hof. split; [| split].
  - cbn [store getitem]. rewrite dict_get_set_ne by done. apply Hnumber.
  - apply getitem_store_eq.
  - unfold cards_of. by rewrite getitem_store_eq.
Qed.

Lemma crate_ok_stamp_crate (name : string) (crate : pyval) :
  crate_ok crate = true → crate_ok (stamp_crate name crate) = true.
Proof.
  intros (number & cards & Hnumber & Hcards & Hok)%crate_ok_inv.
  destruct (stamp_crate_fields name _ _ _ Hnumber Hcards) as (Hn & Hc & _).
  unfold crate_ok. rewrite Hn, Hc. apply forallb_forall. intros card Hin.
  apply list_elem_of_In, list_elem_of_fmap in Hin as (card0 & -> & Hin0).
  rewrite card_ok_stamp_card. rewrite Forall_forall in Hok. by apply Hok.
Qed.

Lemma stamp_crate_twice (name : string) (crate : pyval) :
  crate_ok crate = true →
  stamp_crate name (stamp_crate name crate) = stamp_crate name crate
  ∧ stamped_selection name (stamp_crate name crate) = stamped_selection name crate
  ∧ filter (λ card, selected name card = true) (cards_of (stamp_crate name crate))
    = stamped_selection name crate.
Proof.
  intros (number & cards & Hnumber & Hcards & Hok)%crate_ok_inv.
  destruct (stamp_crate_fields name _ _ _ Hnumber Hcards) as (Hn & Hc & Hof).
  assert (Hcards_of : cards_of crate = cards) by (unfold cards_of; by rewrite Hcards).
  assert (Hre : ∀ l : list pyval,
             stamp_card name (stamp_crate name crate) <$> (stamp_card name crate <$> l)
             = stamp_card name crate <$> l).
  { intros l. rewrite <- list_fmap_compose. apply list_fmap_ext.
    intros i card _. simpl. by apply (stamp_card_twice _ _ _ _ number). }
  split; [| split].
  - unfold stamp_crate at 1. rewrite Hof, Hre. by apply store_same.
  - unfold stamped_selection. rewrite Hof, Hcards_of, filter_stamped. apply Hre.
  - unfold stamped_selection. by rewrite Hof, Hcards_of, filter_stamped.
Qed.

(** The header after a call. *)
Lemma stamped_header_fields (kvs : list (string * pyval)) (oi : pyval)
    (crates' : list pyval) :
  getitem (PDict kvs) "ObjectInfo" = Ok oi →
  (∃ crates, getitem oi "Crates" = Ok (PList crates)) →
  let oi' := store oi "Crates" (PList crates') in
  getitem (store (PDict kvs) "ObjectInfo" oi') "ObjectInfo" = Ok oi'
  ∧ getitem oi' "Crates" = Ok (PList crates').
Proof.
  intros Hoi [crates Hcs] oi'. split; [apply getitem_store_eq |].
  destruct (getitem_dict _ _ _ Hcs) as (okvs & -> & _). apply getitem_store_eq.
Qed.

(** The header that a call leaves has the expected shape again, and a
    second call on it finds nothing to change. *)
Lemma get_object_info_stamped (header_dict oi : pyval) (crates : list pyval)
    (name : string) :
  getitem header_dict "ObjectInfo" = Ok oi →
  getitem oi "Crates" = Ok (PList crates) →
  Forall (λ crate, crate_ok crate = true) crates →
  let header_dict' :=
    store header_dict "ObjectInfo"
      (store oi "Crates" (PList (stamp_crate name <$> crates))) in
  crates_ok header_dict' = true
  ∧ get_object_info header_dict' name =
      (header_dict', Ok (crates ≫= stamped_selection name)).
Proof.
  intros Hoi Hcs Hcrates header_dict'. subst header_dict'.
  destruct (getitem_dict _ _ _ Hoi) as (kvs & -> & _).
  destruct (stamped_header_fields kvs oi (stamp_crate name <$> crates) Hoi)
    as [Hoi' Hcs']; [eauto |].
  assert (Hcrates' : Forall (λ crate, crate_ok crate = true) (stamp_crate name <$> crates)).
  { apply Forall_fmap. eapply Forall_impl; [done |].
    intros crate Hcrate. by apply crate_ok_stamp_crate. }
  split.
  - unfold crates_ok. rewrite Hoi'. cbn [bind]. rewrite Hcs'.
    apply forallb_forall. intros crate Hin%list_elem_of_In.
    rewrite Forall_forall in Hcrates'. by apply Hcrates'.
  - rewrite (get_object_info_ok _ _ _ _ Hoi' Hcs' Hcrates').
    assert (Hsame : stamp_crate name <$> (stamp_crate name <$> crates)
                    = stamp_crate name <$> crates).
    { rewrite <- list_fmap_compose. apply list_fmap_ext.
      intros i crate Hcrate%list_elem_of_lookup_2. simpl.
      rewrite Forall_forall in Hcrates. by apply stamp_crate_twice, Hcrates. }
    assert (Hout : (stamp_crate name <$> crates) ≫= stamped_selection name
                   = crates ≫= stamped_selection name).
    { clear -Hcrates. induction Hcrates as [| crate crates Hcrate _ IH]; [done |].
      rewrite fmap_cons, !bind_cons, IH. f_equal. by apply stamp_crate_twice. }
    rewrite Hsame, Hout. f_equal.
    rewrite (store_same _ _ _ Hcs'). by apply store_same.
Qed.

(** X15. Asking twice is asking once: on a header of the expected shape a
    second call with the same class name returns the same records and
    leaves the header, already stamped by the first call, as it is. *)
Theorem object_info_idempotent (header_dict header_dict' : pyval) (name : string)
    (r : result (list pyval)) :
  crates_ok header_dict = true →
  get_object_info header_dict name = (header_dict', r) →
  crates_ok header_dict' = true
  ∧ get_object_info header_dict' name = (header_dict', r).
Proof.
  intros (oi & crates & Hoi & Hcs & Hcrates)%crates_ok_inv.
  rewrite (get_object_info_ok _ _ _ _ Hoi Hcs Hcrates). intros [= <- <-].
  by apply get_object_info_stamped.
Qed.

Lemma object_info_idempotent_witness :
  let stamped :=
    PDict [("ObjectInfo",
            PDict [("Crates",
                    PList [PDict [("CrateNumber", PInt 2);
                                  ("Cards",
                                   PList [PDict [("Class Name", PStr "ORSIS3302Model");
                                                 ("Card", PInt 3);
                                                 ("Crate", PInt 2)]])]]);
                   ("DataChain",
                    PList [PDict [("Document", PStr "legend.Orca")];
                           PDict [("Run Control", PDict [("RunNumber", PInt 117)])];
                           PDict [("Run Control", PDict [("RunNumber", PInt 118)])]])])] in
  let records := [PDict [("Class Name", PStr "ORSIS3302Model");
                         ("Card", PInt 3);
                         ("Crate", PInt 2)]] in
  crates_ok stamped = true
  ∧ get_object_info stamped "ORSIS3302Model" = (stamped, Ok records).
Proof.
  intros stamped records.
  apply (object_info_idempotent one_card_header stamped "ORSIS3302Model" (Ok records)).
  - reflexivity.
  - vm_compute. reflexivity.
Defined.

Lemma selection_of_stamped (name : string) (crates : list pyval) :
  Forall (λ crate, crate_ok crate = true) crates →
  (stamp_crate name <$> crates)
    ≫= (λ crate, filter (λ card, selected name card = true) (cards_of crate))
  = crates ≫= stamped_selection name.
Proof.
  induction 1 as [| crate crates Hcrate _ IH]; [done |].
  rewrite fmap_cons, !bind_cons, IH. f_equal. by apply stamp_crate_twice.
Qed.

(** X16. The records that are returned are the selected cards of the header
    as the call leaves it, crate by crate and card by card; each of them has
    the requested class name and, under [Crate], the number of the crate it
    sits in. *)
Theorem returned_records_are_in_header (header_dict header_dict' : pyval)
    (name : string) (r : result (list pyval)) :
  crates_ok header_dict = true →
  get_object_info header_dict name = (header_dict', r) →
  ∃ oi' crates' object_info_list,
    r = Ok object_info_list
    ∧ getitem header_dict' "ObjectInfo" = Ok oi'
    ∧ getitem oi' "Crates" = Ok (PList crates')
    ∧ object_info_list =
        crates' ≫= (λ crate, filter (λ card, selected name card = true) (cards_of crate))
    ∧ Forall (λ card,
                getitem card "Class Name" = Ok (PStr name)
                ∧ ∃ crate number,
                    crate ∈ crates' ∧ card ∈ cards_of crate
                    ∧ getitem crate "CrateNumber" = Ok number
                    ∧ getitem card "Crate" = Ok number)
        object_info_list.
Proof.
  intros (oi & crates & Hoi & Hcs & Hcrates)%crates_ok_inv.
  rewrite (get_object_info_ok _ _ _ _ Hoi Hcs Hcrates). intros [= <- <-].
  destruct (getitem_dict _ _ _ Hoi) as (kvs & -> & _).
  destruct (stamped_header_fields kvs oi (stamp_crate name <$> crates) Hoi)
    as [Hoi' Hcs']; [eauto |].
  eexists _, (stamp_crate name <$> crates), _.
  split; [done |]. split; [apply Hoi' |]. split; [apply Hcs' |].
  rewrite <- (selection_of_stamped name crates Hcrates). split; [done |].
  apply Forall_forall. intros card (crate' & Hcard & Hcrate')%list_elem_of_bind.
  apply list_elem_of_filter in Hcard as [Hsel Hcard].
  apply list_elem_of_fmap in Hcrate' as (crate & -> & Hcrate).
  rewrite Forall_forall in Hcrates.
  destruct (crate_ok_inv _ (Hcrates _ Hcrate)) as (number & cards & Hnumber & Hcards & _).
  destruct (stamp_crate_fields name _ _ _ Hnumber Hcards) as (Hn & _ & Hof).
  split; [by apply selected_inv in Hsel as (? & _ & ?) |].
  exists (stamp_crate name crate), number.
  split; [by apply list_elem_of_fmap_2 |]. split; [done |]. split; [done |].
  rewrite Hof in Hcard. apply list_elem_of_fmap in Hcard as (card0 & -> & _).
  rewrite selected_stamp_card in Hsel. by apply stamp_card_crate.
Qed.

Lemma returned_records_are_in_header_witness :
  ∃ oi' crates' object_info_list,
    Ok [PDict [("Class Name", PStr "ORSIS3302Model"); ("Card", PInt 3); ("Crate", PInt 2)]]
      = Ok object_info_list
    ∧ getitem (get_object_info one_card_header "ORSIS3302Model").1 "ObjectInfo" = Ok oi'
    ∧ getitem oi' "Crates" = Ok (PList crates')
    ∧ object_info_list =
        crates' ≫= (λ crate, filter (λ card, selected "ORSIS3302Model" card = true)
                               (cards_of crate))
    ∧ Forall (λ card,
                getitem card "Class Name" = Ok (PStr "ORSIS3302Model")
                ∧ ∃ crate number,
                    crate ∈ crates' ∧ card ∈ cards_of crate
                    ∧ getitem crate "CrateNumber" = Ok number
                    ∧ getitem card "Crate" = Ok number)
        object_info_list.
Proof.
  apply (returned_records_are_in_header one_card_header).
  - reflexivity.
  - vm_compute. reflexivity.
Defined.

Lemma stamp_nothing (name : string) (crates : list pyval) :
  Forall (λ crate, crate_ok crate = true) crates →
  (∀ crate card, crate ∈ crates → card ∈ cards_of crate → selected name card = false) →
  stamp_crate name <$> crates = crates.
Proof.
  intros Hcrates Hnone.
  rewrite <- (list_fmap_id crates) at 2. apply list_fmap_ext.
  intros i crate Hcrate%list_elem_of_lookup_2. simpl.
  rewrite Forall_forall in Hcrates.
  destruct (crate_ok_inv _ (Hcrates _ Hcrate)) as (number & cards & _ & Hcards & _).
  unfold stamp_crate.
  assert (Hid : stamp_card name crate <$> cards_of crate = cards_of crate).
  { rewrite <- (list_fmap_id (cards_of crate)) at 2. apply list_fmap_ext.
    intros j card Hcard%list_elem_of_lookup_2. simpl.
    unfold stamp_card. by rewrite (Hnone crate card). }
  rewrite Hid. apply store_same. unfold cards_of. by rewrite Hcards.
Qed.

Lemma selection_nil (name : string) (crates : list pyval) :
  crates ≫= stamped_selection name = [] ↔
  ∀ crate card, crate ∈ crates → card ∈ cards_of crate → selected name card = false.
Proof.
  split.
  - intros Hnil crate card Hcrate Hcard.
    destruct (selected name card) eqn:Hsel; [| done]. exfalso.
    assert (Hin : stamp_card name crate card ∈ crates ≫= stamped_selection name).
    { apply list_elem_of_bind. exists crate. split; [| done].
      unfold stamped_selection. apply list_elem_of_fmap_2.
      by apply list_elem_of_filter. }
    rewrite Hnil in Hin. by apply elem_of_nil in Hin.
  - intros Hnone. destruct (crates ≫= stamped_selection name) as [| card l] eqn:Hout;
      [done |]. exfalso.
    assert (Hin : card ∈ crates ≫= stamped_selection name) by (rewrite Hout; left).
    apply list_elem_of_bind in Hin as (crate & Hcard & Hcrate).
    unfold stamped_selection in Hcard.
    apply list_elem_of_fmap in Hcard as (card0 & _ & Hcard0).
    apply list_elem_of_filter in Hcard0 as [Hsel Hcard0].
    by rewrite (Hnone crate card0) in Hsel.
Qed.

(** X17. On a header of the expected shape the call never raises; the list
    it returns is empty exactly when no card of any crate has the requested
    class name, and then the header is left as it was. *)
Theorem empty_object_info (header_dict header_dict' : pyval) (name : string)
    (r : result (list pyval)) :
  crates_ok header_dict = true →
  get_object_info header_dict name = (header_dict', r) →
  ∃ oi crates,
    getitem header_dict "ObjectInfo" = Ok oi
    ∧ getitem oi "Crates" = Ok (PList crates)
    ∧ (∃ object_info_list, r = Ok object_info_list)
    ∧ (r = Ok [] ↔
       ∀ crate card, crate ∈ crates → card ∈ cards_of crate →
                     selected name card = false)
    ∧ (r = Ok [] → header_dict' = header_dict).
Proof.
  intros (oi & crates & Hoi & Hcs & Hcrates)%crates_ok_inv.
  rewrite (get_object_info_ok _ _ _ _ Hoi Hcs Hcrates). intros [= <- <-].
  exists oi, crates. split; [done |]. split; [done |]. split; [eauto |].
  assert (Hiff : Ok (crates ≫= stamped_selection name) = Ok [] ↔
                 ∀ crate card, crate ∈ crates → card ∈ cards_of crate →
                               selected name card = false).
  { rewrite <- selection_nil. split; [by intros [= ->] | by intros ->]. }
  split; [done |].
  intros Hr. pose proof (proj1 Hiff Hr) as Hnone.
  rewrite (stamp_nothing _ _ Hcrates Hnone).
  rewrite (store_same oi) by done. by apply store_same.
Qed.

Lemma empty_object_info_witness :
  ∃ oi crates,
    getitem one_card_header "ObjectInfo" = Ok oi
    ∧ getitem oi "Crates" = Ok (PList crates)
    ∧ (∃ object_info_list, Ok ([] : list pyval) = Ok object_info_list)
    ∧ (Ok ([] : list pyval) = Ok [] ↔
       ∀ crate card, crate ∈ crates → card ∈ cards_of crate →
                     selected "ORGretina4MModel" card = false)
    ∧ (Ok ([] : list pyval) = Ok [] → one_card_header = one_card_header).
Proof.
  apply (empty_object_info one_card_header one_card_header "ORGretina4MModel" (Ok [])).
  - reflexivity.
  - vm_compute. reflexivity.
Defined.

(** A crate whose number is missing: the loop over its cards passes the
    cards of other classes and raises at the first selected one, before it
    writes anything. *)
Lemma cards_loop_no_number (name : string) (crate : pyval) (e : exn)
    (cards object_info_list : list pyval) :
  getitem crate "CrateNumber" = Raise e →
  Forall (λ card, card_ok card = true) cards →
  (∃ card, card ∈ cards ∧ selected name card = true) →
  cards_loop name crate cards object_info_list = (cards, Raise e).
Proof.
  intros Hnumber Hcards. revert object_info_list.
  induction Hcards as [| card cards Hcard _ IH]; intros acc [card' [Hin Hsel]].
  { by apply elem_of_nil in Hin. }
  destruct (card_ok_inv _ Hcard) as (kvs & cn & -> & Hcn).
  cbn [cards_loop]. rewrite Hcn.
  destruct (eq_str cn name) eqn:Heq.
  - by rewrite Hnumber.
  - rewrite IH; [done |]. exists card'. split; [| done].
    apply elem_of_cons in Hin as [-> | Hin]; [| done].
    unfold selected in Hsel. rewrite Hcn in Hsel. congruence.
Qed.

Lemma crates_loop_app (name : string) (good more object_info_list : list pyval) :
  Forall (λ crate, crate_ok crate = true) good →
  crates_loop name (good ++ more) object_info_list =
    ((stamp_crate name <$> good)
       ++ (crates_loop name more
             (object_info_list ++ (good ≫= stamped_selection name))).1,
     (crates_loop name more
        (object_info_list ++ (good ≫= stamped_selection name))).2).
Proof.
  intros Hgood. revert object_info_list.
  induction Hgood as [| crate good Hcrate _ IH]; intros acc.
  - simpl. rewrite app_nil_r. by destruct (crates_loop name more acc).
  - destruct (crate_ok_inv _ Hcrate) as (number & cards & Hnumber & Hcards & Hok).
    rewrite <- app_comm_cons. cbn [crates_loop]. rewrite Hcards. cbn [bind py_iter].
    rewrite (cards_loop_ok _ _ number) by done.
    rewrite IH. rewrite fmap_cons, bind_cons.
    assert (Hstamp : stamp_crate name crate
                     = store crate "Cards" (PList (stamp_card name crate <$> cards)))
      by (unfold stamp_crate, cards_of; by rewrite Hcards).
    assert (Hsel : stamped_selection name crate
                   = stamp_card name crate
                       <$> filter (λ card, selected name card = true) cards)
      by (unfold stamped_selection, cards_of; by rewrite Hcards).
    rewrite Hstamp, Hsel. cbn [store_list]. by rewrite <- !app_assoc.
Qed.

(** X18. A call that raises can have written already.  When the crates are
    well formed up to one that has a selected card but no [CrateNumber], the
    call raises the error of that lookup, the crates before it stay stamped
    in the header, and no list is returned. *)
Theorem failure_keeps_earlier_stamps (header_dict oi bad : pyval)
    (good rest cards : list pyval) (name : string) (e : exn) :
  getitem header_dict "ObjectInfo" = Ok oi →
  getitem oi "Crates" = Ok (PList (good ++ bad :: rest)) →
  Forall (λ crate, crate_ok crate = true) good →
  getitem bad "Cards" = Ok (PList cards) →
  Forall (λ card, card_ok card = true) cards →
  (∃ card, card ∈ cards ∧ selected name card = true) →
  getitem bad "CrateNumber" = Raise e →
  get_object_info header_dict name =
    (store header_dict "ObjectInfo"
       (store oi "Crates" (PList ((stamp_crate name <$> good) ++ bad :: rest))),
     Raise e).
Proof.
  intros Hoi Hcs Hgood Hcards Hok Hsel Hnumber. unfold get_object_info.
  rewrite Hoi. cbn [bind]. rewrite Hcs. cbn [bind py_iter].
  rewrite crates_loop_app by done. cbn [crates_loop].
  rewrite Hcards. cbn [bind py_iter].
  rewrite (cards_loop_no_number _ _ e) by done.
  cbn [store_list fst snd]. by rewrite (store_same bad) by done.
Qed.

Lemma failure_keeps_earlier_stamps_witness :
  let card := PDict [("Class Name", PStr "ORSIS3302Model")] in
  let good := PDict [("CrateNumber", PInt 0); ("Cards", PList [card])] in
  let bad := PDict [("Cards", PList [card])] in
  let oi := PDict [("Crates", PList [good; bad])] in
  get_object_info (PDict [("ObjectInfo", oi)]) "ORSIS3302Model" =
    (PDict [("ObjectInfo",
             PDict [("Crates",
                     PList [PDict [("CrateNumber", PInt 0);
                                   ("Cards",
                                    PList [PDict [("Class Name", PStr "ORSIS3302Model");
                                                  ("Crate", PInt 0)]])];
                            bad])])],
     Raise (KeyError "CrateNumber")).
Proof.
  intros card good bad oi.
  apply (failure_keeps_earlier_stamps (PDict [("ObjectInfo", oi)]) oi bad
           [good] [] [card] "ORSIS3302Model" (KeyError "CrateNumber")).
  - reflexivity.
  - reflexivity.
  - repeat constructor.
  - reflexivity.
  - repeat constructor.
  - exists card. split; [left | reflexivity].
  - reflexivity.
Defined.

(** ** The decoder object *)

(** X19. A decoder whose class name is set takes a header of the expected
    shape without an error; its object info is then the list of the cards
    of that class in the header it keeps, and giving it the same header
    again changes neither the decoder nor the header.  A decoder without a
    class name raises [AttributeError]: it keeps the header, which is not
    touched, and its former object info. *)
Theorem set_header_dict_keeps_selection (self : OrcaDecoder.t) (header : pyval) :
  (∀ name,
     OrcaDecoder.orca_class_name self = Some name →
     crates_ok header = true →
     ∃ self' header' oi' crates',
       OrcaDecoder.set_header_dict self header = (self', header', Ok ())
       ∧ OrcaDecoder.header_dict self' = Some header'
       ∧ getitem header' "ObjectInfo" = Ok oi'
       ∧ getitem oi' "Crates" = Ok (PList crates')
       ∧ OrcaDecoder.object_info self' =
           crates' ≫= (λ crate, filter (λ card, selected name card = true)
                                  (cards_of crate))
       ∧ OrcaDecoder.set_header_dict self' header' = (self', header', Ok ()))
  ∧ (OrcaDecoder.orca_class_name self = None →
     OrcaDecoder.set_header_dict self header =
       (OrcaDecoder.Build None (Some header) (OrcaDecoder.object_info self),
        header, Raise AttributeError)).
Proof.
  split.
  - intros name Hname (oi & crates & Hoi & Hcs & Hcrates)%crates_ok_inv.
    destruct (get_object_info_stamped _ _ _ name Hoi Hcs Hcrates) as [_ Hagain].
    destruct (getitem_dict _ _ _ Hoi) as (kvs & -> & _).
    destruct (stamped_header_fields kvs oi (stamp_crate name <$> crates) Hoi)
      as [Hoi' Hcs']; [eauto |].
    eexists _, _, _, (stamp_crate name <$> crates).
    unfold OrcaDecoder.set_header_dict at 1. rewrite Hname.
    rewrite (get_object_info_ok _ _ _ _ Hoi Hcs Hcrates).
    split; [reflexivity |]. cbn [OrcaDecoder.header_dict OrcaDecoder.object_info].
    split; [done |]. split; [apply Hoi' |]. split; [apply Hcs' |].
    split; [by rewrite selection_of_stamped |].
    unfold OrcaDecoder.set_header_dict. cbn [OrcaDecoder.orca_class_name].
    by rewrite Hagain.
  - intros Hnone. unfold OrcaDecoder.set_header_dict. by rewrite Hnone.
Qed.

Lemma set_header_dict_keeps_selection_witness :
  ∃ self' header' oi' crates',
    OrcaDecoder.set_header_dict
      (OrcaDecoder.Build (Some "ORSIS3302Model") None []) one_card_header
      = (self', header', Ok ())
    ∧ OrcaDecoder.header_dict self' = Some header'
    ∧ getitem header' "ObjectInfo" = Ok oi'
    ∧ getitem oi' "Crates" = Ok (PList crates')
    ∧ OrcaDecoder.object_info self' =
        crates' ≫= (λ crate, filter (λ card, selected "ORSIS3302Model" card = true)
                               (cards_of crate))
    ∧ OrcaDecoder.set_header_dict self' header' = (self', header', Ok ()).
Proof.
  destruct (set_header_dict_keeps_selection
              (OrcaDecoder.Build (Some "ORSIS3302Model") None []) one_card_header)
    as [Hset _].
  apply (Hset "ORSIS3302Model"); reflexivity.
Defined.

(** ** The list objects of the class index *)

Lemma flip_class_result (classes leaves : list (string * pyval)) (class_key : string)
    (F : gmap Z (string * nat)) (L : list (list string)) :
  getitem (PDict classes) class_key = Ok (PDict leaves) →
  (∀ super_key, super_key ∈ dict_keys leaves →
     ∃ id, declared_id (PDict classes) class_key super_key = Ok id) →
  ∃ ids,
    flip_class (PDict classes) (FlipState F L) class_key =
      Ok (FlipState (foldl assign F ((λ id, (id, (class_key, length L))) <$> ids))
            (L ++ [dict_keys leaves])).
Proof.
  intros Hc Hleaves.
  destruct (Forall2_pick
              (λ super_key id, declared_id (PDict classes) class_key super_key = Ok id)
              (dict_keys leaves) Hleaves) as [ids Hids].
  exists ids. unfold flip_class. cbn [flipped lists]. rewrite Hc. cbn [bind keys].
  rewrite (flip_super_loop _ _ _ _ ids) by done.
  rewrite alter_app_r_alt by done. rewrite Nat.sub_diag. done.
Qed.

(** Every class visited gets one new list, and the entries written for it
    hold the address of that list. *)
Lemma flip_class_loop_addr (classes : list (string * pyval))
    (class_keys visited : list string) (st : flip_state) :
  (∀ class_key, class_key ∈ class_keys →
     ∃ leaves,
       getitem (PDict classes) class_key = Ok (PDict leaves)
       ∧ ∀ super_key, super_key ∈ dict_keys leaves →
           ∃ id, declared_id (PDict classes) class_key super_key = Ok id) →
  length (lists st) = length visited →
  (∀ id class_key a, flipped st !! id = Some (class_key, a) →
                     visited !! a = Some class_key) →
  ∃ st', for_each (flip_class (PDict classes)) class_keys st = Ok st'
         ∧ length (lists st') = length (visited ++ class_keys)
         ∧ ∀ id class_key a, flipped st' !! id = Some (class_key, a) →
                             (visited ++ class_keys) !! a = Some class_key.
Proof.
  revert visited st.
  induction class_keys as [| ck cks IH]; intros visited st Hok Hlen Haddr.
  - exists st. rewrite app_nil_r. done.
  - destruct (Hok ck) as (leaves & Hc & Hleaves); [left |].
    destruct st as [F L]. cbn [flipped lists] in Hlen, Haddr.
    destruct (flip_class_result _ _ _ F L Hc Hleaves) as [ids Hstep].
    destruct (IH (visited ++ [ck])
                (FlipState (foldl assign F ((λ id, (id, (ck, length L))) <$> ids))
                   (L ++ [dict_keys leaves])))
      as (st' & Hloop & Hlen' & Haddr').
    + intros ck' Hin. apply Hok. by right.
    + cbn [lists]. rewrite !length_app. simpl. lia.
    + cbn [flipped]. intros id ck' a [Hin | Hold]%assign_all_Some.
      * apply list_elem_of_fmap in Hin as (id' & [= -> -> ->] & _).
        rewrite Hlen. apply list_lookup_middle. done.
      * apply lookup_app_l_Some. by eapply Haddr.
    + exists st'. cbn [for_each]. rewrite Hstep. cbn [bind].
      rewrite <- app_assoc in Hlen', Haddr'. done.
Qed.

(** X20. [flip_data_ids] makes one list object per class.  The store holds
    as many lists as the declaration tree has classes; two entries that
    hold the same list name the same class, and, the class names of a
    dictionary being distinct, two entries that name the same class hold
    the same list. *)
Theorem one_list_per_class (header_dict : pyval) :
  description_ok leaf_has_id header_dict = true →
  ∃ st classes,
    getitem header_dict "dataDescription" = Ok (PDict classes)
    ∧ flip_data_ids header_dict = Ok st
    ∧ length (lists st) = length (dict_keys classes)
    ∧ ∀ id1 id2 class1 class2 a1 a2,
        flipped st !! id1 = Some (class1, a1) →
        flipped st !! id2 = Some (class2, a2) →
        (a1 = a2 → class1 = class2)
        ∧ (NoDup (dict_keys classes) → class1 = class2 → a1 = a2).
Proof.
  intros Hok.
  destruct (description_ok_classes _ _ Hok) as (classes & Hdd & Hclasses).
  destruct (flip_class_loop_addr classes (dict_keys classes) [] (FlipState ∅ []))
    as (st & Hrun & Hlen & Haddr).
  { intros ck Hck. destruct (Hclasses _ Hck) as (leaves & Hc & _).
    exists leaves. split; [done |]. intros sk Hsk.
    apply (walk_declared_id header_dict); [done | done |]. by eapply walk_intro. }
  { done. }
  { intros id ck a Hlook. cbn [flipped] in Hlook. by rewrite lookup_empty in Hlook. }
  rewrite app_nil_l in Hlen, Haddr.
  exists st, classes. split; [done |]. split.
  { unfold flip_data_ids. rewrite Hdd. done. }
  split; [done |].
  intros id1 id2 c1 c2 a1 a2 H1%Haddr H2%Haddr. split.
  - intros ->. congruence.
  - intros Hnodup ->. by eapply NoDup_lookup.
Qed.

Lemma one_list_per_class_witness :
  ∃ st classes,
    getitem two_instance_header "dataDescription" = Ok (PDict classes)
    ∧ flip_data_ids two_instance_header = Ok st
    ∧ length (lists st) = length (dict_keys classes)
    ∧ ∀ id1 id2 class1 class2 a1 a2,
        flipped st !! id1 = Some (class1, a1) →
        flipped st !! id2 = Some (class2, a2) →
        (a1 = a2 → class1 = class2)
        ∧ (NoDup (dict_keys classes) → class1 = class2 → a1 = a2).
Proof. apply (one_list_per_class two_instance_header). reflexivity. Defined.

(** ** The kind of file object *)

(** X21. The kind of file object matters only for a leading word that
    announces zero words: on any other stream a buffered file and a file
    object that reads to the end on a negative size give the same outcome
    and leave the same bytes. *)
Theorem kinds_agree_but_for_zero_length (host : byteorder) (bs : list byte) :
  (∀ b0 b1 b2 b3 rest,
     bs = b0 :: b1 :: b2 :: b3 :: rest →
     record_length_of (uint32_native host b0 b1 b2 b3) ≠ 0) →
  (get_next_packet host (Stream read_all_on_negative bs)).1
    = (get_next_packet host (Stream buffered_reader bs)).1
  ∧ remaining (get_next_packet host (Stream read_all_on_negative bs)).2
    = remaining (get_next_packet host (Stream buffered_reader bs)).2.
Proof.
  intros Hnonzero.
  destruct bs as [| b0 [| b1 [| b2 [| b3 rest]]]]; try (split; reflexivity).
  specialize (Hnonzero b0 b1 b2 b3 rest eq_refl).
  pose proof (record_length_of_range (uint32_native host b0 b1 b2 b3)) as Hn.
  rewrite !get_next_packet_word. cbn zeta.
  rewrite !read_nonneg by lia. split; reflexivity.
Qed.

Lemma kinds_agree_but_for_zero_length_witness :
  (get_next_packet little
     (Stream read_all_on_negative [x02; x00; x0c; x00; x0a; x0b; x0c; x0d; x0e])).1
    = (get_next_packet little
         (Stream buffered_reader [x02; x00; x0c; x00; x0a; x0b; x0c; x0d; x0e])).1
  ∧ remaining (get_next_packet little
                 (Stream read_all_on_negative
                    [x02; x00; x0c; x00; x0a; x0b; x0c; x0d; x0e])).2
    = remaining (get_next_packet little
                   (Stream buffered_reader
                      [x02; x00; x0c; x00; x0a; x0b; x0c; x0d; x0e])).2.
Proof.
  apply (kinds_agree_but_for_zero_length little
           [x02; x00; x0c; x00; x0a; x0b; x0c; x0d; x0e]).
  intros b0 b1 b2 b3 rest [= <- <- <- <- <-]. vm_compute. discriminate.
Defined.

(** ** The size of the decoder table *)

Lemma dom_assign_all {V : Type} (ps : list (Z * V)) (t : gmap Z V) :
  dom (foldl assign t ps) = dom t ∪ list_to_set ps.*1.
Proof.
  revert t. induction ps as [| [k v] ps IH]; intros t; cbn [foldl].
  - by rewrite fmap_nil, list_to_set_nil, union_empty_r_L.
  - rewrite fmap_cons, IH, list_to_set_cons. unfold assign. cbn [fst snd].
    rewrite dom_insert_L. apply set_eq. intros x. rewrite !elem_of_union. tauto.
Qed.

Lemma size_list_to_set_cons (x : Z) (l : list Z) :
  size (list_to_set (x :: l) : gset Z) =
    if decide (x ∈ l) then size (list_to_set l : gset Z)
    else S (size (list_to_set l : gset Z)).
Proof.
  rewrite list_to_set_cons. case_decide as Hin.
  - f_equal. apply subseteq_union_1_L.
    intros y ->%elem_of_singleton. by apply elem_of_list_to_set.
  - rewrite size_union, size_singleton; [done |].
    intros y ->%elem_of_singleton Hy%elem_of_list_to_set. done.
Qed.

Lemma size_list_to_set_le (l : list Z) :
  (size (list_to_set l : gset Z) ≤ length l)%nat.
Proof.
  induction l as [| x l IH]; [by rewrite list_to_set_nil, size_empty |].
  rewrite size_list_to_set_cons. case_decide; simpl; lia.
Qed.

Lemma size_list_to_set_NoDup (l : list Z) :
  size (list_to_set l : gset Z) = length l ↔ NoDup l.
Proof.
  split; [| apply size_list_to_set].
  induction l as [| x l IH]; [constructor |].
  rewrite size_list_to_set_cons. pose proof (size_list_to_set_le l).
  case_decide as Hin; simpl; intros Hsize; [lia |].
  apply NoDup_cons. split; [done |]. apply IH. lia.
Qed.

(** X22. A collision shows in the size of the table: the table has at most as many entries as the walk has leaf entries, and
    exactly as many when, and only when, the decoded identifiers of the
    leaf entries are pairwise distinct. *)
Theorem table_size_reveals_collisions (header_dict : pyval) (tbl : gmap Z pyval) :
  get_id_to_decoder_name_dict header_dict = Ok tbl →
  ∃ dd ids,
    getitem header_dict "dataDescription" = Ok dd
    ∧ Forall2 (λ e id, declared_id dd e.1 e.2 = Ok id) (walk dd) ids
    ∧ (size tbl ≤ length (walk dd))%nat
    ∧ (size tbl = length (walk dd) ↔ NoDup ids).
Proof.
  intros (classes & ps & Hdd & _ & Hps & ->)%decoder_table_inv.
  exists (PDict classes), ps.*1. split; [done |].
  pose proof (Forall2_length _ _ _ Hps) as Hlen.
  assert (Hsize : size (foldl assign (∅ : gmap Z pyval) ps)
                  = size (list_to_set ps.*1 : gset Z)).
  { by rewrite <- size_dom, dom_assign_all, dom_empty_L, union_empty_l_L. }
  split; [| split].
  - apply Forall2_fmap_r. eapply Forall2_impl; [done |]. by intros e p [Hid _].
  - rewrite Hsize, Hlen, <- (length_fmap fst). apply size_list_to_set_le.
  - rewrite Hsize, Hlen, <- (length_fmap fst). apply size_list_to_set_NoDup.
Qed.

Lemma table_size_reveals_collisions_witness :
  ∃ dd ids,
    getitem colliding_header "dataDescription" = Ok dd
    ∧ Forall2 (λ e id, declared_id dd e.1 e.2 = Ok id) (walk dd) ids
    ∧ (size ({[1%Z := PStr "ORSIS3302DecoderForEnergy"]} : gmap Z pyval)
       ≤ length (walk dd))%nat
    ∧ (size ({[1%Z := PStr "ORSIS3302DecoderForEnergy"]} : gmap Z pyval)
       = length (walk dd) ↔ NoDup ids).
Proof.
  apply (table_size_reveals_collisions colliding_header). vm_compute. reflexivity.
Defined.
